(** * The [window] keyword of the detection engine (detect-window.c)

    A shallow embedding of the option parser [DetectWindowParse], the
    per-packet evaluator [DetectWindowMatch] and the rule hook
    [DetectWindowSetup], together with the parts of libc and PCRE they
    call, and the properties of the keyword proved over this embedding. *)

From Stdlib Require Import ZArith String Ascii Lia.
From stdpp Require Import base option list gmap strings.

Local Open Scope Z_scope.

(** ** Characters and C strings *)

Definition NUL : ascii := Ascii.zero.
Definition LF : ascii := ascii_of_nat 10.

Definition code (c : ascii) : Z := Z.of_N (N_of_ascii c).

(** [[0-9]] *)
Definition is_digit (c : ascii) : bool := (48 <=? code c) && (code c <=? 57).

(** [isspace] of the C locale: space, and the controls HT, LF, VT, FF, CR. *)
Definition isspace (c : ascii) : bool :=
  (code c =? 32) || ((9 <=? code c) && (code c <=? 13)).

(** [\s] of PCRE.  Up to PCRE 8.33 the class leaves VT (11) out, later
    releases include it; [vt] tells which library is linked. *)
Definition pcre_space (vt : bool) (c : ascii) : bool :=
  (code c =? 32) || (code c =? 9) || (code c =? 10) || (code c =? 12)
  || (code c =? 13) || (vt && (code c =? 11)).

(** [strlen]: the number of bytes before the terminating NUL. *)
Fixpoint strlen (s : string) : nat :=
  match s with
  | EmptyString => 0%nat
  | String c s' => if Ascii.eqb c NUL then 0%nat else S (strlen s')
  end.

(** [atoi]: skip white space, take an optional sign, then accumulate the
    decimal digits.  The result is an [int]; the digit runs handed over by
    the parser have at most nine digits and stay below [2^31]. *)
Fixpoint atoi_digits (acc : Z) (s : string) : Z :=
  match s with
  | String c s' =>
      if is_digit c then atoi_digits (10 * acc + (code c - 48)) s' else acc
  | EmptyString => acc
  end.

Fixpoint atoi_skip (s : string) : string :=
  match s with
  | String c s' => if isspace c then atoi_skip s' else s
  | EmptyString => s
  end.

Definition atoi (s : string) : Z :=
  match atoi_skip s with
  | String c s' =>
      if Ascii.eqb c "-" then - atoi_digits 0 s'
      else if Ascii.eqb c "+" then atoi_digits 0 s'
      else atoi_digits 0 (String c s')
  | EmptyString => 0
  end.

(** ** The PCRE subset the keyword uses *)

Inductive cclass : Type :=
| ClsSpace                (* \s *)
| ClsDigit                (* [0-9] *)
| ClsChar (c : ascii).    (* [c] *)

Inductive item : Type :=
| Bol                                           (* ^ *)
| Eol                                           (* $ *)
| Star (c : cclass)                             (* c*, greedy *)
| OptGroup (n : nat) (c : cclass)               (* (c)?, greedy, group n *)
| PossGroup (n : nat) (c : cclass) (lo hi : nat). (* (c{lo,hi}+), group n *)

Definition PCRE_ERROR_NOMATCH : Z := -1.
Definition PCRE_ERROR_NOMEMORY : Z := -6.
Definition PCRE_ERROR_NOSUBSTRING : Z := -7.

Section Pcre.
Variable vt : bool.

Definition in_class (c : cclass) (ch : ascii) : bool :=
  match c with
  | ClsSpace => pcre_space vt ch
  | ClsDigit => is_digit ch
  | ClsChar x => Ascii.eqb ch x
  end.

(** Greedy repetition of one character class in front of the
    continuation [k]: the longest run is tried first and a character is
    given back each time the rest of the pattern fails. *)
Fixpoint star {R : Type} (p : ascii → bool) (k : Z → string → option R)
    (off : Z) (rest : string) : option R :=
  match rest with
  | String ch rest' =>
      if p ch then
        match star p k (off + 1) rest' with
        | Some r => Some r
        | None => k off rest
        end
      else k off rest
  | EmptyString => k off rest
  end.

(** The run a possessive [c{lo,hi}+] takes: as many characters of the
    class as there are, [hi] at most, and none is given back. *)
Fixpoint span (p : ascii → bool) (hi : nat) (rest : string) : nat * string :=
  match hi, rest with
  | S hi', String ch rest' =>
      if p ch then let '(n, r) := span p hi' rest' in (S n, r)
      else (0%nat, rest)
  | _, _ => (0%nat, rest)
  end.

(** Offsets of group [n] are the entries [2n] and [2n+1] of the vector. *)
Definition set_group (n : nat) (s e : Z) (ov : list Z) : list Z :=
  <[(2 * n + 1)%nat := e]> (<[(2 * n)%nat := s]> ov).

Definition at_eol (rest : string) : bool :=
  match rest with
  | EmptyString => true
  | String ch EmptyString => Ascii.eqb ch LF
  | _ => false
  end.

(** Backtracking match of a pattern from offset [off], where [rest] is
    what is left of the subject. *)
Fixpoint exec (re : list item) (ov : list Z) (off : Z) (rest : string)
    : option (list Z) :=
  match re with
  | [] => Some (set_group 0 0 off ov)
  | Bol :: re' => if off =? 0 then exec re' ov off rest else None
  | Eol :: re' => if at_eol rest then exec re' ov off rest else None
  | Star c :: re' => star (in_class c) (exec re' ov) off rest
  | OptGroup n c :: re' =>
      match rest with
      | String ch rest' =>
          if in_class c ch then
            match exec re' (set_group n off (off + 1) ov) (off + 1) rest' with
            | Some r => Some r
            | None => exec re' ov off rest
            end
          else exec re' ov off rest
      | EmptyString => exec re' ov off rest
      end
  | PossGroup n c lo hi :: re' =>
      let '(cnt, rest') := span (in_class c) hi rest in
      if (lo <=? cnt)%nat then
        exec re' (set_group n off (off + Z.of_nat cnt) ov)
             (off + Z.of_nat cnt) rest'
      else None
  end.

(** The highest group, [n] at most, that took part in the match. *)
Fixpoint highest_set (n : nat) (ov : list Z) : nat :=
  match n with
  | O => O
  | S n' => if 0 <=? ov !!! (2 * n)%nat then n else highest_set n' ov
  end.

(** [pcre_exec code extra subject length 0 0 ov ovecsize]: the pattern
    starts with [^], so the only attempt is at offset 0.  The result is
    one more than the highest group set, or [PCRE_ERROR_NOMATCH]; groups
    that did not take part have offsets -1. *)
Definition pcre_exec (re : list item) (subject : string) (length : nat)
    (ovecsize : nat) : Z * list Z :=
  let ov0 := replicate ovecsize (-1) in
  match exec re ov0 0 (substring 0 length subject) with
  | Some ov => (Z.of_nat (S (highest_set (ovecsize / 3 - 1) ov)), ov)
  | None => (PCRE_ERROR_NOMATCH, ov0)
  end.
End Pcre.

(** [PARSE_REGEX], "^\\s*([!])?\\s*([0-9]{1,9}+)\\s*$", as [pcre_compile]
    leaves it in the static [parse_regex]. *)
Definition parse_regex : list item :=
  [ Bol; Star ClsSpace; OptGroup 1 (ClsChar "!"); Star ClsSpace;
    PossGroup 2 ClsDigit 1 9; Star ClsSpace; Eol ].

(** The part of the pattern after the negation: [\s*([0-9]{1,9}+)\s*$]. *)
Definition regex_tail : list item :=
  [ Star ClsSpace; PossGroup 2 ClsDigit 1 9; Star ClsSpace; Eol ].

Definition MAX_SUBSTRINGS : nat := 30.

(** ** Memory

    Blocks of the C heap.  A field that has not been written since
    [malloc] holds no value ([None]). *)

Abbreviation loc := positive.

Record DetectWindowData : Type := {
  negated : option Z;   (* uint8_t: 1 when the option is negated, else 0 *)
  size : option Z       (* the window size to compare with *)
}.

(** Modelled from the spec: detect.h is not part of the sources; the
    generic predicate node has the shape { kind, opaquePredicate }. *)
Record SigMatch : Type := {
  type : Z;
  ctx : option loc
}.

Inductive block : Type :=
| BWindow (wd : DetectWindowData)
| BString (s : string)
| BSigMatch (sm : SigMatch).

(** The heap and the allocator's answers to the coming requests: a leading
    [true] makes the next request return NULL; once the list is used up
    every request is granted. *)
Record Mem : Type := {
  cells : gmap loc block;
  denied : list bool
}.

Definition malloc (b : block) (m : Mem) : option loc * Mem :=
  match denied m with
  | true :: o => (None, {| cells := cells m; denied := o |})
  | o =>
      let l := fresh (dom (cells m)) in
      (Some l, {| cells := <[l := b]> (cells m); denied := tail o |})
  end.

(** [free(NULL)] does nothing. *)
Definition free (p : option loc) (m : Mem) : Mem :=
  match p with
  | Some l => {| cells := delete l (cells m); denied := denied m |}
  | None => m
  end.

(** The C string a pointer leads to. *)
Definition load_string (p : option loc) (m : Mem) : string :=
  match p with
  | Some l =>
      match cells m !! l with
      | Some (BString s) => s
      | _ => EmptyString
      end
  | None => EmptyString
  end.

Definition store (l : loc) (f : block → block) (m : Mem) : Mem :=
  {| cells := alter f l (cells m); denied := denied m |}.

Definition set_negated (v : Z) (b : block) : block :=
  match b with
  | BWindow wd => BWindow {| negated := Some v; size := size wd |}
  | _ => b
  end.

Definition set_size (v : Z) (b : block) : block :=
  match b with
  | BWindow wd => BWindow {| negated := negated wd; size := Some v |}
  | _ => b
  end.

Definition set_sigmatch (t : Z) (c : option loc) (b : block) : block :=
  match b with
  | BSigMatch _ => BSigMatch {| type := t; ctx := c |}
  | _ => b
  end.

(** [pcre_get_substring subject ov stringcount stringnumber &ptr]: the
    copy of group [stringnumber] in fresh memory and its length, or a
    negative error code. *)
Definition pcre_get_substring (subject : string) (ov : list Z)
    (stringcount stringnumber : nat) (m : Mem) : Z * option loc * Mem :=
  if (stringcount <=? stringnumber)%nat then (PCRE_ERROR_NOSUBSTRING, None, m)
  else
    let s := ov !!! (2 * stringnumber)%nat in
    let yield := ov !!! (2 * stringnumber + 1)%nat - s in
    match malloc (BString (substring (Z.to_nat s) (Z.to_nat yield) subject)) m with
    | (Some l, m') => (yield, Some l, m')
    | (None, m') => (PCRE_ERROR_NOMEMORY, None, m')
    end.

(** ** detect-window.c *)

(** Modelled from the spec: detect-window.h is not part of the sources;
    the largest window is 65535, the maximum of the 16-bit TCP field. *)
Definition MAX_WINDOW_VALUE : Z := 65535.

(** The places where [DetectWindowParse] leaves through [goto error]. *)
Inductive ParseExit : Type :=
| ExitSyntax       (* the option does not match PARSE_REGEX *)
| ExitMalloc       (* no memory for the DetectWindowData *)
| ExitSubstring    (* pcre_get_substring failed *)
| ExitOutOfRange.  (* the size exceeds MAX_WINDOW_VALUE *)

(** [for (i = 0; i < n; i++) if (args[i] != NULL) free(args[i]);] *)
Fixpoint free_args (i : nat) (n : nat) (args : list (option loc)) (m : Mem) : Mem :=
  match n with
  | O => m
  | S n' => free_args (S i) n' args (free (args !!! i) m)
  end.

Definition DetectWindowFree (ptr : option loc) (m : Mem) : Mem := free ptr m.

Section Window.
(** What the sources leave open: the PCRE release ([vt], see
    [pcre_space]) and, detect-window.h not being part of them, the width
    in bits of the unsigned [size] field of DetectWindowData. *)
Variable vt : bool.
Variable size_bits : nat.

(** Conversion of the [int] of [atoi] to the type of [size]. *)
Definition to_size (v : Z) : Z := v mod 2 ^ Z.of_nat size_bits.

(** The [error:] label with the locals as they are at the jump. *)
Definition parse_error (e : ParseExit) (ret : Z) (args : list (option loc))
    (wd : option loc) (m : Mem) : (ParseExit + loc) * Mem :=
  let m := free_args 0 (Z.to_nat (ret - 1)) args m in
  let m := match wd with
           | Some _ => DetectWindowFree wd m
           | None => m
           end in
  (inl e, m).

Definition DetectWindowParse_run (windowstr : string) (m : Mem)
    : (ParseExit + loc) * Mem :=
  let wd : option loc := None in
  let args : list (option loc) := [None; None; None] in
  let '(ret, ov) :=
    pcre_exec vt parse_regex windowstr (strlen windowstr) MAX_SUBSTRINGS in
  if (ret <? 1) || (ret >? 3) then parse_error ExitSyntax ret args wd m
  else
    let '(wd, m) := malloc (BWindow {| negated := None; size := None |}) m in
    match wd with
    | None => parse_error ExitMalloc ret args wd m
    | Some wdl =>
        if ret >? 1 then
          let '(res, str_ptr, m) :=
            pcre_get_substring windowstr ov MAX_SUBSTRINGS 1 m in
          if res <? 0 then parse_error ExitSubstring ret args wd m
          else
            let args := <[0%nat := str_ptr]> args in
            let m :=
              match load_string (args !!! 0%nat) m with
              | String ch _ =>
                  if Ascii.eqb ch "!" then store wdl (set_negated 1) m
                  else store wdl (set_negated 0) m
              | EmptyString => store wdl (set_negated 0) m
              end in
            if ret >? 2 then
              let '(res, str_ptr, m) :=
                pcre_get_substring windowstr ov MAX_SUBSTRINGS 2 m in
              if res <? 0 then parse_error ExitSubstring ret args wd m
              else
                let sz := to_size (atoi (load_string str_ptr m)) in
                let m := store wdl (set_size sz) m in
                if sz >? MAX_WINDOW_VALUE then
                  parse_error ExitOutOfRange ret args wd m
                else (inr wdl, free_args 0 (Z.to_nat (ret - 1)) args m)
            else (inr wdl, free_args 0 (Z.to_nat (ret - 1)) args m)
        else (inr wdl, free_args 0 (Z.to_nat (ret - 1)) args m)
    end.

(** What the caller sees: the pointer, NULL on every failure. *)
Definition DetectWindowParse (windowstr : string) (m : Mem)
    : option loc * Mem :=
  let '(r, m') := DetectWindowParse_run windowstr m in
  (match r with inr l => Some l | inl _ => None end, m').
End Window.

(** Modelled from the spec: detect.h and detect-parse.c are not part of
    the sources.  A rule holds the ordered sequence of its predicate nodes;
    appendPredicate(rule, node) puts the node at the end, and the node
    allocator hands out a zeroed node or NULL. *)
Record Signature : Type := {
  sig_id : Z;
  sig_match : list loc
}.

Definition SigMatchAlloc (m : Mem) : option loc * Mem :=
  malloc (BSigMatch {| type := 0; ctx := None |}) m.

Definition SigMatchAppend (s : Signature) (m : option loc) (new : loc)
    : Signature :=
  {| sig_id := sig_id s; sig_match := sig_match s ++ [new] |}.

(** Modelled from the spec: decode.h is not part of the sources.  The
    decoded packet offers isTcp(packet) and tcpWindow(packet), a 16-bit
    value: [PKT_IS_TCP] tests the TCP header pointer and [TCP_GET_WINDOW]
    reads the window of that header in host order. *)
Record TCPHdr : Type := {
  th_sport : Z;
  th_dport : Z;
  th_flags : Z;
  th_win : Z
}.

Record Packet : Type := {
  ip_proto : Z;
  tcph : option TCPHdr;
  payload : string
}.

Definition PKT_IS_TCP (p : Packet) : bool :=
  match tcph p with
  | Some _ => true
  | None => false
  end.

Definition TCP_GET_WINDOW (p : Packet) : option Z := th_win <$> tcph p.

Section Hooks.
Variable vt : bool.
Variable size_bits : nat.
(** The keyword's number in the keyword table (detect.h). *)
Variable DETECT_WINDOW : Z.
(** The engine's contexts are only passed along. *)
Context {ThreadVars DetectEngineThreadCtx DetectEngineCtx : Type}.

(** The result is [None] where the C program reads a field or a block
    that holds no value. *)
Definition DetectWindowMatch (t : option ThreadVars)
    (det_ctx : option DetectEngineThreadCtx) (p : Packet)
    (s : option Signature) (m : SigMatch) (mem : Mem) : option Z :=
  let ret := 0 in
  let wd := ctx m in
  match wd with
  | Some wdl =>
      if negb (PKT_IS_TCP p) then Some 0
      else
        match cells mem !! wdl with
        | Some (BWindow d) =>
            neg ← negated d;
            sz ← size d;
            win ← TCP_GET_WINDOW p;
            if ((neg =? 0) && (sz =? win))
               || (negb (neg =? 0) && negb (sz =? win))
            then Some 1
            else Some ret
        | _ => None
        end
  | None => Some ret
  end.

Definition DetectWindowSetup (de_ctx : option DetectEngineCtx)
    (s : Signature) (m : option loc) (windowstr : string) (mem : Mem)
    : Z * Signature * Mem :=
  let sm : option loc := None in
  let '(wd, mem) := DetectWindowParse vt size_bits windowstr mem in
  match wd with
  | None => (-1, s, free sm mem)
  | Some _ =>
      let '(sm, mem) := SigMatchAlloc mem in
      match sm with
      | None => (-1, s, free sm (DetectWindowFree wd mem))
      | Some sml =>
          let mem := store sml (set_sigmatch DETECT_WINDOW wd) mem in
          (0, SigMatchAppend s m sml, mem)
      end
  end.
End Hooks.

(** ** Vocabulary of the properties *)

Fixpoint string_forall (p : ascii → bool) (s : string) : bool :=
  match s with
  | EmptyString => true
  | String c s' => p c && string_forall p s'
  end.

(** The option grammar [ws* negation? ws* digits ws*] over a class [ws] of
    blanks, with [negation] the character '!' and [digits] a run of one to
    nine decimal digits. *)
Definition window_option (ws : ascii → bool) (s : string) : Prop :=
  ∃ w1 neg w2 ds w3 : string,
    s = w1 +:+ neg +:+ w2 +:+ ds +:+ w3
    ∧ string_forall ws w1 = true
    ∧ (neg = EmptyString ∨ neg = String "!" EmptyString)
    ∧ string_forall ws w2 = true
    ∧ string_forall is_digit ds = true
    ∧ (1 ≤ String.length ds ≤ 9)%nat
    ∧ string_forall ws w3 = true.

(** [ws := space character] *)
Definition is_space_char (c : ascii) : bool := Ascii.eqb c " ".

(** The value of a digit string, digit by digit from the most significant. *)
Fixpoint decimal_value (s : string) : Z :=
  match s with
  | EmptyString => 0
  | String c s' => (code c - 48) * 10 ^ Z.of_nat (String.length s') + decimal_value s'
  end.

(** The bytes of a C string: what comes before the first NUL. *)
Definition c_text (s : string) : string := substring 0 (strlen s) s.

(** The allocator grants the next [n] requests. *)
Definition grants (n : nat) (m : Mem) : Prop :=
  Forall (λ b, b = false) (take n (denied m)).

(** No DetectWindowData is live in [m'] that was not live in [m]. *)
Definition no_new_window (m m' : Mem) : Prop :=
  ∀ l wd, cells m' !! l = Some (BWindow wd) → cells m !! l = Some (BWindow wd).

(** A repetition of [p] cannot go on into [rest]. *)
Definition stops (p : ascii → bool) (rest : string) : Prop :=
  match rest with
  | String c _ => p c = false
  | EmptyString => True
  end.

(** The text of group [n] of an offset vector, as [pcre_get_substring]
    copies it. *)
Definition group (subject : string) (ov : list Z) (n : nat) : string :=
  substring (Z.to_nat (ov !!! (2 * n)%nat))
            (Z.to_nat (ov !!! (2 * n + 1)%nat - ov !!! (2 * n)%nat)) subject.

(** The offsets [parse_regex] leaves for an option [w1 neg w2 ds ...]
    whose match ends at [e]. *)
Definition offsets (ov0 : list Z) (w1 neg w2 ds : string) (e : Z) : list Z :=
  let a := Z.of_nat (String.length w1 + String.length neg + String.length w2) in
  set_group 0 0 e
    (set_group 2 a (a + Z.of_nat (String.length ds))
       (match neg with
        | EmptyString => ov0
        | String _ _ =>
            set_group 1 (Z.of_nat (String.length w1))
                      (Z.of_nat (String.length w1) + 1) ov0
        end)).

(** What [wd->negated] becomes for the text [g] of group 1. *)
Definition neg_flag (g : string) : Z :=
  match g with
  | String ch _ => if Ascii.eqb ch "!" then 1 else 0
  | EmptyString => 0
  end.

(** [s] is the option [w1 neg w2 ds w3] of the grammar over the blanks
    [ws]. *)
Definition option_parts (ws : ascii → bool) (s w1 neg w2 ds w3 : string)
    : Prop :=
  s = w1 +:+ neg +:+ w2 +:+ ds +:+ w3
  ∧ string_forall ws w1 = true
  ∧ (neg = EmptyString ∨ neg = String "!" EmptyString)
  ∧ string_forall ws w2 = true
  ∧ string_forall is_digit ds = true
  ∧ (1 ≤ String.length ds ≤ 9)%nat
  ∧ string_forall ws w3 = true.

(** The characters an option is made of. *)
Definition option_char (vt : bool) (c : ascii) : bool :=
  pcre_space vt c || Ascii.eqb c "!" || is_digit c.

(** Every block of [m] is in [m'], as it was. *)
Definition blocks_kept (m m' : Mem) : Prop :=
  ∀ l b, cells m !! l = Some b → cells m' !! l = Some b.

(** No SigMatch node is live in [m'] that was not live in [m]. *)
Definition no_new_node (m m' : Mem) : Prop :=
  ∀ l sm, cells m' !! l = Some (BSigMatch sm) → cells m !! l = Some (BSigMatch sm).

(** ** Sample data *)

(** A heap with nothing allocated and an allocator that never refuses. *)
Definition mem_empty : Mem := {| cells := ∅; denied := [] |}.

(** The same heap with an allocator that refuses the first request. *)
Definition mem_full : Mem := {| cells := ∅; denied := [true] |}.

(** ["\t117"]: a tabulation in front of the digits. *)
Definition tab_117 : string := String (ascii_of_nat 9) "117".

(** A heap holding the predicate of [window:117] and one holding the
    predicate of [window:!117], at different addresses. *)
Definition mem_117 : Mem :=
  {| cells := {[ 1%positive := BWindow {| negated := Some 0; size := Some 117 |} ]};
     denied := [] |}.

Definition mem_not_117 : Mem :=
  {| cells := {[ 5%positive := BWindow {| negated := Some 1; size := Some 117 |};
                 6%positive := BString "117" ]};
     denied := [true] |}.

(** The TCP segment of the unit tests: port 80 to 49335, flags PSH|ACK,
    window 0x0075. *)
Definition tcp_segment : Packet :=
  {| ip_proto := 6;
     tcph := Some {| th_sport := 80; th_dport := 49335; th_flags := 24;
                     th_win := 117 |};
     payload := "HTTP/1.1 302 Found" |}.

Definition tcp_segment_190 : Packet :=
  {| ip_proto := 6;
     tcph := Some {| th_sport := 443; th_dport := 1025; th_flags := 16;
                     th_win := 190 |};
     payload := "" |}.

Definition tcp_segment_other : Packet :=
  {| ip_proto := 6;
     tcph := Some {| th_sport := 22; th_dport := 50000; th_flags := 2;
                     th_win := 117 |};
     payload := "SSH-2.0" |}.

Definition mem_117_moved : Mem :=
  {| cells := {[ 9%positive := BWindow {| negated := Some 0; size := Some 117 |};
                 2%positive := BString "!55455" ]};
     denied := [true; false] |}.

(** A heap whose allocator grants two requests and refuses the third. *)
Definition mem_short : Mem :=
  {| cells := {[ 4%positive := BWindow {| negated := Some 1; size := Some 55455 |} ]};
     denied := [false; false; true] |}.

(** A heap whose allocator grants three requests and refuses the fourth. *)
Definition mem_three : Mem :=
  {| cells := {[ 4%positive := BWindow {| negated := Some 1; size := Some 55455 |} ]};
     denied := [false; false; false; true] |}.

Definition udp_datagram : Packet :=
  {| ip_proto := 17; tcph := None; payload := "query" |}.

Definition rule_1 : Signature := {| sig_id := 1; sig_match := [7%positive] |}.

(** ** Strings *)

Lemma append_nil_l (s : string) : EmptyString +:+ s = s.
Proof. reflexivity. Qed.

Lemma append_cons c (a b : string) : String c a +:+ b = String c (a +:+ b).
Proof. reflexivity. Qed.

Lemma append_nil_r (s : string) : s +:+ EmptyString = s.
Proof.
  induction s as [|c s IH]; [done |]. by rewrite append_cons, IH.
Qed.

Lemma append_assoc (a b c : string) : (a +:+ b) +:+ c = a +:+ b +:+ c.
Proof.
  induction a as [|x a IH]; [done |]. by rewrite !append_cons, IH.
Qed.

Lemma length_append (a b : string) :
  String.length (a +:+ b) = (String.length a + String.length b)%nat.
Proof.
  induction a as [|x a IH]; [done |]. rewrite append_cons. simpl. by rewrite IH.
Qed.

Lemma string_forall_append p (a b : string) :
  string_forall p (a +:+ b) = string_forall p a && string_forall p b.
Proof.
  induction a as [|x a IH]; [done |].
  rewrite append_cons. simpl. rewrite IH. by destruct (p x).
Qed.

Lemma substring_0_length (s : string) : substring 0 (String.length s) s = s.
Proof. induction s as [|c s IH]; simpl; [done | by rewrite IH]. Qed.

Lemma substring_0_append (a b : string) :
  substring 0 (String.length a) (a +:+ b) = a.
Proof.
  induction a as [|x a IH]; [by destruct b |].
  rewrite append_cons. simpl. by rewrite IH.
Qed.

Lemma substring_skip (a b : string) (n : nat) :
  substring (String.length a) n (a +:+ b) = substring 0 n b.
Proof.
  induction a as [|x a IH]; [done |]. rewrite append_cons. simpl. by rewrite IH.
Qed.

Lemma substring_mid (a b c : string) :
  substring (String.length a) (String.length b) (a +:+ b +:+ c) = b.
Proof. by rewrite substring_skip, substring_0_append. Qed.

Lemma substring_0_0 (s : string) : substring 0 0 s = EmptyString.
Proof. by destruct s. Qed.

(** A piece that lies inside the first [k] bytes is the same piece of
    the whole string. *)
Lemma substring_prefix (s : string) (a n k : nat) :
  (a + n ≤ k)%nat → substring a n (substring 0 k s) = substring a n s.
Proof.
  revert a n k. induction s as [|c s IH]; intros a n k H.
  - destruct k; simpl; done.
  - destruct k as [|k].
    + assert (a = 0%nat) as -> by lia. assert (n = 0%nat) as -> by lia. done.
    + simpl. destruct a as [|a].
      * destruct n as [|n]; [done |]. f_equal. apply (IH 0%nat); lia.
      * apply IH. lia.
Qed.

Lemma c_text_length (s : string) : String.length (c_text s) = strlen s.
Proof.
  unfold c_text. induction s as [|c s IH]; simpl; [done |].
  destruct (Ascii.eqb c NUL); simpl; [done | by rewrite IH].
Qed.

(** ** Character classes *)

Lemma digit_not_space vt c : is_digit c = true → pcre_space vt c = false.
Proof.
  unfold is_digit, pcre_space. generalize (code c). intros n H.
  apply andb_true_iff in H as [H1%Z.leb_le H2%Z.leb_le].
  repeat (apply orb_false_iff; split); try (apply Z.eqb_neq; lia).
  destruct vt; simpl; [apply Z.eqb_neq; lia | done].
Qed.

Lemma space_not_digit vt c : pcre_space vt c = true → is_digit c = false.
Proof.
  intros H. destruct (is_digit c) eqn:E; [| done].
  apply (digit_not_space vt) in E. congruence.
Qed.

Lemma digit_not_bang c : is_digit c = true → Ascii.eqb c "!" = false.
Proof.
  intros H. destruct (Ascii.eqb_spec c "!") as [-> |]; [| done].
  vm_compute in H. discriminate.
Qed.

Lemma bang_not_space vt : pcre_space vt "!" = false.
Proof. by destruct vt. Qed.

Lemma digit_not_nul c : is_digit c = true → Ascii.eqb c NUL = false.
Proof.
  intros H. destruct (Ascii.eqb_spec c NUL) as [-> |]; [| done].
  vm_compute in H. discriminate.
Qed.

Lemma digit_not_isspace c : is_digit c = true → isspace c = false.
Proof.
  unfold is_digit, isspace. generalize (code c). intros n H.
  apply andb_true_iff in H as [H1%Z.leb_le H2%Z.leb_le].
  apply orb_false_iff; split; [apply Z.eqb_neq; lia |].
  apply andb_false_iff. right. apply Z.leb_gt. lia.
Qed.

Lemma digit_code c : is_digit c = true → 0 ≤ code c - 48 ≤ 9.
Proof.
  unfold is_digit. intros [H1%Z.leb_le H2%Z.leb_le]%andb_true_iff. lia.
Qed.

Lemma strlen_digits (d : string) :
  string_forall is_digit d = true → strlen d = String.length d.
Proof.
  induction d as [|c d IH]; simpl; [done |].
  intros [Hc Hd]%andb_true_iff. rewrite (digit_not_nul c Hc). by rewrite IH.
Qed.

Lemma c_text_digits (d : string) :
  string_forall is_digit d = true → c_text d = d.
Proof.
  intros H. unfold c_text. rewrite (strlen_digits d H). apply substring_0_length.
Qed.

(** ** The matcher *)

Lemma star_inv {R : Type} p (k : Z → string → option R) off rest r :
  star p k off rest = Some r →
  ∃ w rest', rest = w +:+ rest' ∧ string_forall p w = true
             ∧ k (off + Z.of_nat (String.length w)) rest' = Some r.
Proof.
  revert off. induction rest as [|c rest IH]; intros off H; simpl in H.
  - exists EmptyString, EmptyString. simpl. by rewrite Z.add_0_r.
  - assert (Hstay : k off (String c rest) = Some r →
      ∃ w rest', String c rest = w +:+ rest' ∧ string_forall p w = true
                 ∧ k (off + Z.of_nat (String.length w)) rest' = Some r).
    { intros Hk. exists EmptyString, (String c rest). simpl.
      by rewrite Z.add_0_r. }
    destruct (p c) eqn:Hc; [| by apply Hstay].
    destruct (star p k (off + 1) rest) as [r'|] eqn:Hs; [| by apply Hstay].
    injection H as ->.
    destruct (IH _ Hs) as (w & rest' & -> & Hw & Hk).
    exists (String c w), rest'. rewrite append_cons. simpl. rewrite Hc, Hw.
    repeat split; try done.
    rewrite <- Hk. f_equal. lia.
Qed.

Lemma star_greedy {R : Type} p (k : Z → string → option R) w rest off r :
  string_forall p w = true → stops p rest →
  k (off + Z.of_nat (String.length w)) rest = Some r →
  star p k off (w +:+ rest) = Some r.
Proof.
  revert off. induction w as [|c w IH]; intros off Hw Hstop Hk.
  - rewrite append_nil_l. simpl in Hk. rewrite Z.add_0_r in Hk.
    destruct rest as [|c rest]; simpl; [done |].
    simpl in Hstop. by rewrite Hstop.
  - rewrite append_cons. simpl in *.
    apply andb_true_iff in Hw as [Hc Hw]. rewrite Hc.
    rewrite (IH (off + 1)); [done | done | done |].
    rewrite <- Hk. f_equal. lia.
Qed.

Lemma span_inv p hi rest n rest' :
  span p hi rest = (n, rest') →
  ∃ w, rest = w +:+ rest' ∧ string_forall p w = true
       ∧ String.length w = n ∧ (n ≤ hi)%nat.
Proof.
  revert rest n rest'. induction hi as [|hi IH]; intros rest n rest' H.
  - simpl in H. injection H as <- <-. exists EmptyString. by destruct rest.
  - destruct rest as [|c rest]; simpl in H.
    { injection H as <- <-. exists EmptyString. repeat split; try done; lia. }
    destruct (p c) eqn:Hc.
    + destruct (span p hi rest) as [n1 r1] eqn:Hs. injection H as <- <-.
      destruct (IH _ _ _ Hs) as (w & -> & Hw & Hn & Hle).
      exists (String c w). rewrite append_cons. simpl. rewrite Hc, Hw, Hn.
      repeat split; try done; lia.
    + injection H as <- <-. exists EmptyString. repeat split; try done; lia.
Qed.

Lemma span_all p hi w rest :
  string_forall p w = true → (String.length w ≤ hi)%nat → stops p rest →
  span p hi (w +:+ rest) = (String.length w, rest).
Proof.
  revert hi. induction w as [|c w IH]; intros hi Hw Hle Hstop.
  - rewrite append_nil_l. destruct hi, rest; simpl; try done.
    simpl in Hstop. by rewrite Hstop.
  - destruct hi as [|hi]; [simpl in Hle; lia |].
    rewrite append_cons. simpl in *.
    apply andb_true_iff in Hw as [Hc Hw]. rewrite Hc.
    rewrite (IH hi); [done | done | lia | done].
Qed.

Lemma stops_digits_space vt (ds rest : string) :
  string_forall is_digit ds = true → (1 ≤ String.length ds)%nat →
  stops (pcre_space vt) (ds +:+ rest).
Proof.
  destruct ds as [|c ds]; simpl; [lia |].
  intros [Hc _]%andb_true_iff _. by apply digit_not_space.
Qed.

Lemma stops_space_digit vt (w : string) :
  string_forall (pcre_space vt) w = true → stops is_digit w.
Proof.
  destruct w as [|c w]; simpl; [done |].
  intros [Hc _]%andb_true_iff. by apply (space_not_digit vt).
Qed.

Section PcreFacts.
Variable vt : bool.

Lemma exec_nil ov off rest :
  exec vt [] ov off rest = Some (set_group 0 0 off ov).
Proof. reflexivity. Qed.

Lemma exec_bol re ov off rest :
  exec vt (Bol :: re) ov off rest
  = if off =? 0 then exec vt re ov off rest else None.
Proof. reflexivity. Qed.

Lemma exec_eol re ov off rest :
  exec vt (Eol :: re) ov off rest
  = if at_eol rest then exec vt re ov off rest else None.
Proof. reflexivity. Qed.

Lemma exec_star c re ov off rest :
  exec vt (Star c :: re) ov off rest
  = star (in_class vt c) (exec vt re ov) off rest.
Proof. reflexivity. Qed.

Lemma exec_opt_nil n c re ov off :
  exec vt (OptGroup n c :: re) ov off EmptyString
  = exec vt re ov off EmptyString.
Proof. reflexivity. Qed.

Lemma exec_opt_cons n c re ov off ch rest :
  exec vt (OptGroup n c :: re) ov off (String ch rest)
  = if in_class vt c ch then
      match exec vt re (set_group n off (off + 1) ov) (off + 1) rest with
      | Some r => Some r
      | None => exec vt re ov off (String ch rest)
      end
    else exec vt re ov off (String ch rest).
Proof. reflexivity. Qed.

Lemma exec_poss n c lo hi re ov off rest :
  exec vt (PossGroup n c lo hi :: re) ov off rest
  = let '(cnt, rest') := span (in_class vt c) hi rest in
    if (lo <=? cnt)%nat then
      exec vt re (set_group n off (off + Z.of_nat cnt) ov)
           (off + Z.of_nat cnt) rest'
    else None.
Proof. reflexivity. Qed.

Lemma at_eol_space rest :
  at_eol rest = true → string_forall (pcre_space vt) rest = true.
Proof.
  destruct rest as [|c [|c' rest]]; simpl; try done.
  intros ->%Ascii.eqb_eq. by destruct vt.
Qed.

(** Whatever [regex_tail] matches is blanks, one to nine digits and
    blanks, and group 2 is the digit run. *)
Lemma regex_tail_sound ov1 off rest ov :
  exec vt regex_tail ov1 off rest = Some ov →
  ∃ (w2 ds w3 : string) (e : Z),
    rest = w2 +:+ ds +:+ w3
    ∧ string_forall (pcre_space vt) w2 = true
    ∧ string_forall is_digit ds = true
    ∧ (1 ≤ String.length ds ≤ 9)%nat
    ∧ string_forall (pcre_space vt) w3 = true
    ∧ ov = set_group 0 0 e
             (set_group 2 (off + Z.of_nat (String.length w2))
                (off + Z.of_nat (String.length w2)
                 + Z.of_nat (String.length ds)) ov1).
Proof.
  unfold regex_tail. rewrite exec_star. intros H.
  apply star_inv in H as (w2 & r2 & -> & Hw2 & H).
  rewrite exec_poss in H.
  destruct (span (in_class vt ClsDigit) 9 r2) as [cnt r3] eqn:Hspan.
  apply span_inv in Hspan as (ds & -> & Hds & Hlen & Hle).
  destruct (1 <=? cnt)%nat eqn:Hlo; [| done].
  apply Nat.leb_le in Hlo. rewrite exec_star in H.
  apply star_inv in H as (w3 & r4 & -> & Hw3 & H).
  rewrite exec_eol in H. destruct (at_eol r4) eqn:Heol; [| done].
  rewrite exec_nil in H. injection H as <-.
  eexists w2, ds, (w3 +:+ r4), _. subst cnt.
  change (in_class vt ClsSpace) with (pcre_space vt) in *.
  change (in_class vt ClsDigit) with is_digit in *.
  rewrite string_forall_append, Hw3, (at_eol_space _ Heol).
  repeat split; try done; lia.
Qed.

Lemma regex_tail_complete ov1 off (w2 ds w3 : string) :
  string_forall (pcre_space vt) w2 = true →
  string_forall is_digit ds = true →
  (1 ≤ String.length ds ≤ 9)%nat →
  string_forall (pcre_space vt) w3 = true →
  exec vt regex_tail ov1 off (w2 +:+ ds +:+ w3)
  = Some (set_group 0 0
            (off + Z.of_nat (String.length w2) + Z.of_nat (String.length ds)
             + Z.of_nat (String.length w3))
            (set_group 2 (off + Z.of_nat (String.length w2))
               (off + Z.of_nat (String.length w2)
                + Z.of_nat (String.length ds)) ov1)).
Proof.
  intros Hw2 Hds Hlen Hw3. unfold regex_tail. rewrite exec_star.
  apply star_greedy; [done | apply stops_digits_space; [done | lia] |].
  rewrite exec_poss. change (in_class vt ClsDigit) with is_digit.
  rewrite (span_all is_digit 9 ds w3 Hds);
    [| lia | by apply (stops_space_digit vt)].
  destruct (Nat.leb_spec 1 (String.length ds)) as [_|]; [| lia].
  rewrite exec_star. rewrite <- (append_nil_r w3) at 1.
  apply star_greedy; [done | done |].
  rewrite exec_eol. simpl at_eol. by rewrite exec_nil.
Qed.

(** Soundness of the whole pattern. *)
Lemma parse_regex_sound ov0 s ov :
  exec vt parse_regex ov0 0 s = Some ov →
  ∃ (w1 neg w2 ds w3 : string) (e : Z),
    s = w1 +:+ neg +:+ w2 +:+ ds +:+ w3
    ∧ string_forall (pcre_space vt) w1 = true
    ∧ (neg = EmptyString ∨ neg = String "!" EmptyString)
    ∧ string_forall (pcre_space vt) w2 = true
    ∧ string_forall is_digit ds = true
    ∧ (1 ≤ String.length ds ≤ 9)%nat
    ∧ string_forall (pcre_space vt) w3 = true
    ∧ ov = offsets ov0 w1 neg w2 ds e.
Proof.
  unfold parse_regex. rewrite exec_bol. simpl (0 =? 0).
  rewrite exec_star. intros H.
  apply star_inv in H as (w1 & r1 & -> & Hw1 & H).
  fold regex_tail in H. rewrite Z.add_0_l in H.
  assert (Hplain : exec vt regex_tail ov0 (Z.of_nat (String.length w1)) r1
                   = Some ov →
    ∃ (w1' neg w2 ds w3 : string) (e : Z),
      w1 +:+ r1 = w1' +:+ neg +:+ w2 +:+ ds +:+ w3
      ∧ string_forall (pcre_space vt) w1' = true
      ∧ (neg = EmptyString ∨ neg = String "!" EmptyString)
      ∧ string_forall (pcre_space vt) w2 = true
      ∧ string_forall is_digit ds = true
      ∧ (1 ≤ String.length ds ≤ 9)%nat
      ∧ string_forall (pcre_space vt) w3 = true
      ∧ ov = offsets ov0 w1' neg w2 ds e).
  { intros Ht.
    apply regex_tail_sound in Ht as (w2 & ds & w3 & e & -> & ? & ? & ? & ? & ->).
    exists w1, EmptyString, w2, ds, w3, e. rewrite append_nil_l.
    repeat split; try done; try lia; [by left |].
    unfold offsets. simpl String.length. do 3 f_equal; lia. }
  destruct r1 as [|ch r1].
  - rewrite exec_opt_nil in H. by apply Hplain.
  - rewrite exec_opt_cons in H. simpl in_class in H.
    destruct (Ascii.eqb_spec ch "!") as [-> | _]; [| by apply Hplain].
    destruct (exec vt regex_tail _ _ r1) as [ov'|] eqn:Ht; [| by apply Hplain].
    injection H as ->.
    apply regex_tail_sound in Ht as (w2 & ds & w3 & e & -> & ? & ? & ? & ? & ->).
    exists w1, (String "!" EmptyString), w2, ds, w3, e.
    repeat split; try done; try lia; [by right |].
    unfold offsets. simpl String.length. do 3 f_equal; lia.
Qed.

(** Completeness: every option of the grammar is matched, with the
    negation in group 1 and the digit run in group 2. *)
Lemma parse_regex_complete ov0 (w1 neg w2 ds w3 : string) :
  string_forall (pcre_space vt) w1 = true →
  (neg = EmptyString ∨ neg = String "!" EmptyString) →
  string_forall (pcre_space vt) w2 = true →
  string_forall is_digit ds = true →
  (1 ≤ String.length ds ≤ 9)%nat →
  string_forall (pcre_space vt) w3 = true →
  ∃ e, exec vt parse_regex ov0 0 (w1 +:+ neg +:+ w2 +:+ ds +:+ w3)
       = Some (offsets ov0 w1 neg w2 ds e).
Proof.
  intros Hw1 Hneg Hw2 Hds Hlen Hw3.
  unfold parse_regex. rewrite exec_bol. simpl (0 =? 0). rewrite exec_star.
  fold regex_tail. change (in_class vt ClsSpace) with (pcre_space vt).
  exists (Z.of_nat (String.length w1 + String.length neg + String.length w2
                    + String.length ds + String.length w3)).
  destruct Hneg as [-> | ->].
  - rewrite append_nil_l, <- append_assoc.
    apply star_greedy.
    + by rewrite string_forall_append, Hw1, Hw2.
    + apply stops_digits_space; [done | lia].
    + assert (Hd : ∃ c ds', ds = String c ds' ∧ is_digit c = true).
      { destruct ds as [|c ds']; simpl in *; [lia |].
        apply andb_true_iff in Hds as [? _]. by exists c, ds'. }
      destruct Hd as (c & ds' & Heq & Hc). rewrite Heq at 1.
      rewrite append_cons, exec_opt_cons. simpl in_class.
      rewrite (digit_not_bang c Hc).
      rewrite <- append_cons, <- Heq, <- (append_nil_l (ds +:+ w3)).
      rewrite regex_tail_complete; try done.
      unfold offsets. rewrite length_append. simpl String.length.
      f_equal. f_equal; [| f_equal]; lia.
  - apply star_greedy; [done | apply (bang_not_space vt) |].
    rewrite append_cons, append_nil_l, exec_opt_cons. simpl in_class.
    rewrite ?Ascii.eqb_refl. rewrite regex_tail_complete; try done.
    unfold offsets. simpl String.length.
    f_equal. f_equal; [| f_equal]; lia.
Qed.
End PcreFacts.

(** ** [pcre_exec] on [parse_regex] *)

Section ExecFacts.
Variable vt : bool.

Lemma offsets_rc (w1 neg w2 ds : string) e :
  (neg = EmptyString ∨ neg = String "!" EmptyString) →
  highest_set (MAX_SUBSTRINGS / 3 - 1)
    (offsets (replicate MAX_SUBSTRINGS (-1)) w1 neg w2 ds e) = 2%nat.
Proof.
  intros [-> | ->]; unfold offsets; cbn;
    destruct (Z.leb_spec 0
      (Z.of_nat (String.length w1 + 0 + String.length w2))) as [_|];
    destruct (Z.leb_spec 0
      (Z.of_nat (String.length w1 + 1 + String.length w2))) as [_|];
    try reflexivity; lia.
Qed.

Lemma offsets_group1 (s w1 neg w2 ds w3 : string) e :
  c_text s = w1 +:+ neg +:+ w2 +:+ ds +:+ w3 →
  (neg = EmptyString ∨ neg = String "!" EmptyString) →
  group s (offsets (replicate MAX_SUBSTRINGS (-1)) w1 neg w2 ds e) 1 = neg.
Proof.
  intros Htext [-> | ->]; unfold group, offsets; cbn -[substring Z.add Z.sub].
  - apply substring_0_0.
  - rewrite Nat2Z.id.
    replace (Z.to_nat _) with (String.length (String "!" EmptyString))
      by (simpl; lia).
    rewrite <- (substring_prefix s _ _ (strlen s)).
    + fold (c_text s). rewrite Htext. apply substring_mid.
    + rewrite <- c_text_length, Htext, !length_append. simpl. lia.
Qed.

Lemma offsets_group2 (s w1 neg w2 ds w3 : string) e :
  c_text s = w1 +:+ neg +:+ w2 +:+ ds +:+ w3 →
  (neg = EmptyString ∨ neg = String "!" EmptyString) →
  group s (offsets (replicate MAX_SUBSTRINGS (-1)) w1 neg w2 ds e) 2 = ds.
Proof.
  intros Htext Hneg.
  assert (group s (offsets (replicate MAX_SUBSTRINGS (-1)) w1 neg w2 ds e) 2
          = substring (String.length (w1 +:+ neg +:+ w2)) (String.length ds) s)
    as ->.
  { unfold group. rewrite !length_append.
    destruct Hneg as [-> | ->]; unfold offsets; cbn -[substring Z.add Z.sub];
      rewrite Nat2Z.id; f_equal; lia. }
  rewrite <- (substring_prefix s _ _ (strlen s)).
  - fold (c_text s). rewrite Htext.
    replace (w1 +:+ neg +:+ w2 +:+ ds +:+ w3)
      with ((w1 +:+ neg +:+ w2) +:+ ds +:+ w3) by (by rewrite !append_assoc).
    apply substring_mid.
  - rewrite <- c_text_length, Htext, !length_append. lia.
Qed.

(** An option of the grammar is matched with result 3, the negation in
    group 1 and the digit run in group 2. *)
Lemma pcre_exec_match (s w1 neg w2 ds w3 : string) :
  c_text s = w1 +:+ neg +:+ w2 +:+ ds +:+ w3 →
  string_forall (pcre_space vt) w1 = true →
  (neg = EmptyString ∨ neg = String "!" EmptyString) →
  string_forall (pcre_space vt) w2 = true →
  string_forall is_digit ds = true →
  (1 ≤ String.length ds ≤ 9)%nat →
  string_forall (pcre_space vt) w3 = true →
  ∃ ov, pcre_exec vt parse_regex s (strlen s) MAX_SUBSTRINGS = (3, ov)
        ∧ group s ov 1 = neg ∧ group s ov 2 = ds.
Proof.
  intros Htext Hw1 Hneg Hw2 Hds Hlen Hw3. unfold pcre_exec. fold (c_text s).
  rewrite Htext.
  destruct (parse_regex_complete vt (replicate MAX_SUBSTRINGS (-1))
              w1 neg w2 ds w3) as [e ->]; try done.
  eexists. split; [| split].
  - by rewrite offsets_rc.
  - by apply (offsets_group1 s w1 neg w2 ds w3).
  - by apply (offsets_group2 s w1 neg w2 ds w3).
Qed.

(** [pcre_exec] either reports no match, and then the text is not an
    option of the grammar over [\s], or it returns 3. *)
Lemma pcre_exec_cases (s : string) :
  (pcre_exec vt parse_regex s (strlen s) MAX_SUBSTRINGS
   = (PCRE_ERROR_NOMATCH, replicate MAX_SUBSTRINGS (-1))
   ∧ exec vt parse_regex (replicate MAX_SUBSTRINGS (-1)) 0 (c_text s) = None)
  ∨ (∃ ov neg ds,
       pcre_exec vt parse_regex s (strlen s) MAX_SUBSTRINGS = (3, ov)
       ∧ group s ov 1 = neg ∧ group s ov 2 = ds
       ∧ (neg = EmptyString ∨ neg = String "!" EmptyString)
       ∧ string_forall is_digit ds = true
       ∧ (1 ≤ String.length ds ≤ 9)%nat
       ∧ window_option (pcre_space vt) (c_text s)).
Proof.
  destruct (exec vt parse_regex (replicate MAX_SUBSTRINGS (-1)) 0 (c_text s))
    as [ov|] eqn:He.
  - right.
    destruct (parse_regex_sound vt _ _ _ He)
      as (w1 & neg & w2 & ds & w3 & e & Htext & Hw1 & Hneg & Hw2 & Hds & Hlen & Hw3 & _).
    destruct (pcre_exec_match s w1 neg w2 ds w3)
      as (ov' & Hex & Hg1 & Hg2); try done.
    exists ov', neg, ds. repeat split; try done; try lia.
    by exists w1, neg, w2, ds, w3.
  - left. split; [| done]. unfold pcre_exec. fold (c_text s). by rewrite He.
Qed.

(** The groups of a match have lengths that are not negative. *)
Lemma pcre_exec_yields (s : string) ov :
  pcre_exec vt parse_regex s (strlen s) MAX_SUBSTRINGS = (3, ov) →
  0 ≤ ov !!! (2 * 1 + 1)%nat - ov !!! (2 * 1)%nat
  ∧ 0 ≤ ov !!! (2 * 2 + 1)%nat - ov !!! (2 * 2)%nat.
Proof.
  unfold pcre_exec. fold (c_text s).
  destruct (exec vt parse_regex (replicate MAX_SUBSTRINGS (-1)) 0 (c_text s))
    as [ov'|] eqn:He; [| discriminate].
  intros [= _ <-].
  destruct (parse_regex_sound vt _ _ _ He)
    as (w1 & neg & w2 & ds & w3 & e & _ & _ & Hneg & _ & _ & _ & _ & ->).
  destruct Hneg as [-> | ->]; unfold offsets; cbn -[Z.add Z.sub]; lia.
Qed.

Lemma pcre_exec_nomatch (s : string) :
  ¬ window_option (pcre_space vt) (c_text s) →
  pcre_exec vt parse_regex s (strlen s) MAX_SUBSTRINGS
  = (PCRE_ERROR_NOMATCH, replicate MAX_SUBSTRINGS (-1)).
Proof.
  intros Hno. destruct (pcre_exec_cases s) as [[H _] | H]; [done |].
  destruct H as (? & ? & ? & _ & _ & _ & _ & _ & _ & Hw). by destruct Hno.
Qed.
End ExecFacts.

(** ** [atoi] on digit runs *)

Lemma decimal_value_bounds (ds : string) :
  string_forall is_digit ds = true →
  0 ≤ decimal_value ds < 10 ^ Z.of_nat (String.length ds).
Proof.
  induction ds as [|c ds IH]; [simpl; lia |].
  cbn [decimal_value string_forall String.length].
  intros [Hc Hds]%andb_true_iff. specialize (IH Hds).
  pose proof (digit_code c Hc).
  rewrite Nat2Z.inj_succ, Z.pow_succ_r by lia. nia.
Qed.

Lemma atoi_digits_value (ds : string) acc :
  string_forall is_digit ds = true →
  atoi_digits acc ds = acc * 10 ^ Z.of_nat (String.length ds) + decimal_value ds.
Proof.
  revert acc. induction ds as [|c ds IH]; intros acc; [simpl; lia |].
  cbn [decimal_value string_forall String.length atoi_digits].
  intros [Hc Hds]%andb_true_iff. rewrite Hc, (IH _ Hds).
  rewrite Nat2Z.inj_succ, Z.pow_succ_r by lia. lia.
Qed.

Lemma atoi_value (ds : string) :
  string_forall is_digit ds = true → atoi ds = decimal_value ds.
Proof.
  intros Hds. destruct ds as [|c ds]; [done |].
  pose proof Hds as [Hc _]%andb_true_iff. unfold atoi. simpl atoi_skip.
  rewrite (digit_not_isspace c Hc).
  destruct (Ascii.eqb_spec c "-") as [-> |]; [by vm_compute in Hc |].
  destruct (Ascii.eqb_spec c "+") as [-> |]; [by vm_compute in Hc |].
  rewrite (atoi_digits_value _ 0 Hds). lia.
Qed.

(** ** The allocator *)

Lemma malloc_cases (b : block) (m : Mem) :
  (∃ o, denied m = true :: o
        ∧ malloc b m = (None, {| cells := cells m; denied := o |}))
  ∨ (∃ l, cells m !! l = None
          ∧ (∀ o, denied m ≠ true :: o)
          ∧ malloc b m = (Some l, {| cells := <[l := b]> (cells m);
                                     denied := tail (denied m) |})).
Proof.
  assert (Hfresh : cells m !! fresh (dom (cells m)) = None).
  { apply not_elem_of_dom, is_fresh. }
  unfold malloc. destruct (denied m) as [|[] o].
  - right. eexists. split; [done |]. split; [done | done].
  - left. by exists o.
  - right. eexists. split; [done |]. split; [done | done].
Qed.

Lemma grants_head n m o : grants (S n) m → denied m ≠ true :: o.
Proof.
  unfold grants. intros H Hd. rewrite Hd in H. simpl in H.
  by apply Forall_cons in H as [? _].
Qed.

Lemma grants_tail n m m' :
  grants (S n) m → denied m' = tail (denied m) → grants n m'.
Proof.
  unfold grants. intros H ->. destruct (denied m) as [|b o]; simpl in *.
  - by rewrite take_nil.
  - by apply Forall_cons in H as [_ ?].
Qed.

Lemma free_args_none n m : free_args 0 n [None; None; None] m = m.
Proof.
  assert (H : ∀ i, free_args i n [None; None; None] m = m).
  { induction n as [|n IH]; intros i; simpl; [done |].
    replace (free ([None; None; None] !!! i) m) with m; [apply IH |].
    by destruct i as [|[|[|i]]]. }
  apply H.
Qed.

(** ** Runs of [DetectWindowParse] *)

Section ParseFacts.
Variable vt : bool.
Variable size_bits : nat.

Lemma run_nomatch (s : string) (m : Mem) ov :
  pcre_exec vt parse_regex s (strlen s) MAX_SUBSTRINGS
  = (PCRE_ERROR_NOMATCH, ov) →
  DetectWindowParse_run vt size_bits s m = (inl ExitSyntax, m).
Proof.
  intros H. unfold DetectWindowParse_run. rewrite H. reflexivity.
Qed.

Lemma run_match (s : string) (m : Mem) ov :
  pcre_exec vt parse_regex s (strlen s) MAX_SUBSTRINGS = (3, ov) →
  ∃ r m',
    DetectWindowParse_run vt size_bits s m = (r, m')
    ∧ match r with
      | inr l =>
          cells m !! l = None
          ∧ cells m' !! l
            = Some (BWindow
                {| negated := Some (neg_flag (group s ov 1));
                   size := Some (to_size size_bits (atoi (group s ov 2))) |})
          ∧ to_size size_bits (atoi (group s ov 2)) ≤ MAX_WINDOW_VALUE
      | inl e =>
          no_new_window m m'
          ∧ e ≠ ExitSyntax
          ∧ (grants 3 m →
             e = ExitOutOfRange
             ∧ MAX_WINDOW_VALUE < to_size size_bits (atoi (group s ov 2)))
      end.
Proof.
  intros H. unfold DetectWindowParse_run. rewrite H.
  change ((3 <? 1) || (3 >? 3)) with false.
  change (3 >? 1) with true. change (3 >? 2) with true.
  change (Z.to_nat (3 - 1)) with 2%nat. cbv beta iota zeta.
  destruct (malloc_cases (BWindow {| negated := None; size := None |}) m)
    as [(o & Hd & ->) | (l0 & Hl0 & Hg0 & ->)].
  { unfold parse_error. rewrite free_args_none. eexists _, _.
    split; [reflexivity |]. split; [by intros l wd |]. split; [done |].
    intros Hg. by destruct (grants_head _ _ o Hg). }
  destruct (pcre_exec_yields vt s ov H) as [Hy1 Hy2].
  unfold pcre_get_substring.
  change (MAX_SUBSTRINGS <=? 1)%nat with false.
  change (MAX_SUBSTRINGS <=? 2)%nat with false. cbv beta iota zeta.
  fold (group s ov 1). fold (group s ov 2).
  set (m1 := {| cells := <[l0:=BWindow {| negated := None; size := None |}]>
                           (cells m);
                denied := tail (denied m) |}).
  destruct (malloc_cases (BString (group s ov 1)) m1)
    as [(o & Hd & ->) | (l1 & Hl1 & Hg1 & ->)].
  { change (PCRE_ERROR_NOMEMORY <? 0) with true. cbv beta iota zeta.
    unfold parse_error. rewrite free_args_none. eexists _, _.
    split; [reflexivity |]. split; [| split; [done |]].
    - intros l wd. simpl. rewrite delete_insert_eq.
      rewrite delete_id by done. done.
    - intros Hg. apply (grants_tail _ _ m1) in Hg; [| done].
      by destruct (grants_head _ _ o Hg). }
  destruct (Z.ltb_spec (ov !!! (2 * 1 + 1)%nat - ov !!! (2 * 1)%nat) 0)
    as [| _]; [lia |].
  simpl in Hl1. apply lookup_insert_None in Hl1 as [Hl1 Hne10].
  set (m2 := {| cells := <[l1:=BString (group s ov 1)]> (cells m1);
                denied := tail (denied m1) |}).
  change (<[0%nat:=Some l1]> [None; None; None] !!! 0%nat) with (Some l1).
  assert (load_string (Some l1) m2 = group s ov 1) as Hload1.
  { unfold load_string. simpl. by rewrite lookup_insert_eq. }
  cbv beta iota zeta.
  set (m2' := match load_string (Some l1) m2 with
              | EmptyString => store l0 (set_negated 0) m2
              | String ch _ =>
                  if Ascii.eqb ch "!" then store l0 (set_negated 1) m2
                  else store l0 (set_negated 0) m2
              end).
  assert (m2' = store l0 (set_negated (neg_flag (group s ov 1))) m2) as ->.
  { subst m2'. rewrite Hload1. unfold neg_flag.
    destruct (group s ov 1) as [|ch g]; [done |]. by destruct (Ascii.eqb ch "!"). }
  set (m2' := store l0 (set_negated (neg_flag (group s ov 1))) m2).
  destruct (malloc_cases (BString (group s ov 2)) m2')
    as [(o & Hd & ->) | (l2 & Hl2 & Hg2 & ->)].
  { change (PCRE_ERROR_NOMEMORY <? 0) with true. cbv beta iota zeta.
    unfold parse_error. eexists _, _.
    split; [reflexivity |]. split; [| split; [done |]].
    - intros l wd. simpl.
      destruct (decide (l = l0)), (decide (l = l1));
        simplify_map_eq; done.
    - intros Hg. apply (grants_tail _ _ m1) in Hg; [| done].
      apply (grants_tail _ _ m2') in Hg; [| done].
      by destruct (grants_head _ _ o Hg). }
  destruct (Z.ltb_spec (ov !!! (2 * 2 + 1)%nat - ov !!! (2 * 2)%nat) 0)
    as [| _]; [lia |].
  simpl in Hl2. apply lookup_alter_None, lookup_insert_None in Hl2 as [Hl2 Hne21].
  apply lookup_insert_None in Hl2 as [Hl2 Hne20].
  set (m3 := {| cells := <[l2:=BString (group s ov 2)]> (cells m2');
                denied := tail (denied m2') |}).
  assert (load_string (Some l2) m3 = group s ov 2) as ->.
  { unfold load_string. simpl. by rewrite lookup_insert_eq. }
  set (sz := to_size size_bits (atoi (group s ov 2))).
  destruct (Z.gtb_spec sz MAX_WINDOW_VALUE) as [Hbig | Hok].
  - unfold parse_error. eexists _, _.
    split; [reflexivity |]. split; [| split; [done |]].
    + intros l wd. simpl.
      destruct (decide (l = l0)), (decide (l = l1)), (decide (l = l2));
        simplify_map_eq; done.
    + intros _. split; [done | lia].
  - eexists _, _. split; [reflexivity |]. split; [done |]. split; [| lia].
    simpl. simplify_map_eq. done.
Qed.
End ParseFacts.

(** ** Options of the grammar *)

Lemma window_option_nil ws : ¬ window_option ws EmptyString.
Proof.
  intros (w1 & neg & w2 & ds & w3 & Heq & _ & _ & _ & _ & Hlen & _).
  apply (f_equal String.length) in Heq. rewrite !length_append in Heq.
  simpl in Heq. lia.
Qed.

(** An option starts with a blank, the negation or a digit. *)
Lemma window_option_head ws c (s : string) :
  window_option ws (String c s) →
  ws c = true ∨ c = "!"%char ∨ is_digit c = true.
Proof.
  intros (w1 & neg & w2 & ds & w3 & Heq & Hw1 & Hneg & Hw2 & Hds & Hlen & _).
  destruct w1 as [|c1 w1].
  - rewrite append_nil_l in Heq. destruct Hneg as [-> | ->].
    + rewrite append_nil_l in Heq. destruct w2 as [|c2 w2].
      * rewrite append_nil_l in Heq. destruct ds as [|cd ds]; [simpl in Hlen; lia |].
        rewrite append_cons in Heq. injection Heq as -> _.
        simpl in Hds. apply andb_true_iff in Hds as [? _]. tauto.
      * rewrite append_cons in Heq. injection Heq as -> _.
        simpl in Hw2. apply andb_true_iff in Hw2 as [? _]. tauto.
    + rewrite append_cons in Heq. injection Heq as -> _. tauto.
  - rewrite append_cons in Heq. injection Heq as -> _.
    simpl in Hw1. apply andb_true_iff in Hw1 as [? _]. tauto.
Qed.

(** Over the blanks of [\s] the grammar is what [parse_regex] matches. *)
Lemma window_option_exec vt (s : string) :
  window_option (pcre_space vt) s
  ↔ is_Some (exec vt parse_regex (replicate MAX_SUBSTRINGS (-1)) 0 s).
Proof.
  split.
  - intros (w1 & neg & w2 & ds & w3 & -> & Hw1 & Hneg & Hw2 & Hds & Hlen & Hw3).
    destruct (parse_regex_complete vt (replicate MAX_SUBSTRINGS (-1))
                w1 neg w2 ds w3) as [e ->]; done.
  - intros [ov Hov].
    destruct (parse_regex_sound vt _ _ _ Hov)
      as (w1 & neg & w2 & ds & w3 & e & ? & ? & ? & ? & ? & ? & ? & _).
    by exists w1, neg, w2, ds, w3.
Qed.

Section ParseOptions.
Variable vt : bool.
Variable size_bits : nat.

Lemma parse_unfold (s : string) (m : Mem) r m' :
  DetectWindowParse_run vt size_bits s m = (r, m') →
  DetectWindowParse vt size_bits s m
  = (match r with inr l => Some l | inl _ => None end, m').
Proof. unfold DetectWindowParse. by intros ->. Qed.

Lemma to_size_small v :
  0 ≤ v < 2 ^ Z.of_nat size_bits → to_size size_bits v = v.
Proof. intros H. unfold to_size. by apply Z.mod_small. Qed.

Lemma to_size_bounds v : 0 ≤ to_size size_bits v.
Proof. unfold to_size. apply Z.mod_pos_bound. lia. Qed.

(** What the parser does with an option of the grammar when the
    allocator grants its three requests. *)
Lemma run_option (s w1 neg w2 ds w3 : string) (m : Mem) :
  c_text s = w1 +:+ neg +:+ w2 +:+ ds +:+ w3 →
  string_forall (pcre_space vt) w1 = true →
  (neg = EmptyString ∨ neg = String "!" EmptyString) →
  string_forall (pcre_space vt) w2 = true →
  string_forall is_digit ds = true →
  (1 ≤ String.length ds ≤ 9)%nat →
  string_forall (pcre_space vt) w3 = true →
  grants 3 m →
  (to_size size_bits (decimal_value ds) ≤ MAX_WINDOW_VALUE →
   ∃ l m', DetectWindowParse_run vt size_bits s m = (inr l, m')
           ∧ cells m !! l = None
           ∧ cells m' !! l
             = Some (BWindow
                 {| negated := Some (neg_flag neg);
                    size := Some (to_size size_bits (decimal_value ds)) |}))
  ∧ (MAX_WINDOW_VALUE < to_size size_bits (decimal_value ds) →
     ∃ m', DetectWindowParse_run vt size_bits s m = (inl ExitOutOfRange, m')
           ∧ no_new_window m m').
Proof.
  intros Htext Hw1 Hneg Hw2 Hds Hlen Hw3 Hg.
  destruct (pcre_exec_match vt s w1 neg w2 ds w3)
    as (ov & Hex & Hg1 & Hg2); try done.
  destruct (run_match vt size_bits s m ov Hex) as (r & m' & Hrun & Hr).
  rewrite Hg1, Hg2, (atoi_value ds Hds) in Hr.
  destruct r as [e | l].
  - destruct Hr as (Hnew & _ & Hrange). destruct (Hrange Hg) as [-> Hbig].
    split; [lia |]. intros _. by exists m'.
  - destruct Hr as (Hfresh & Hl & Hsmall).
    split; [| lia]. intros _. by exists l, m'.
Qed.
End ParseOptions.

(** ** The unit tests of detect-window.c and the scenarios of the
    specification, run on the model *)

Example DetectWindowTestParse01 :
  ∃ m', DetectWindowParse false 32 "35402" mem_empty = (Some 1%positive, m')
        ∧ cells m' !! 1%positive
          = Some (BWindow {| negated := Some 0; size := Some 35402 |}).
Proof. eexists. split; [vm_compute; reflexivity | reflexivity]. Qed.

Example DetectWindowTestParse02 :
  ∃ m', DetectWindowParse false 32 "!35402" mem_empty = (Some 1%positive, m')
        ∧ cells m' !! 1%positive
          = Some (BWindow {| negated := Some 1; size := Some 35402 |}).
Proof. eexists. split; [vm_compute; reflexivity | reflexivity]. Qed.

Example DetectWindowTestParse03 :
  DetectWindowParse false 32 "" mem_empty = (None, mem_empty).
Proof. reflexivity. Qed.

Example DetectWindowTestParse04 :
  fst (DetectWindowParse false 32 "1235402" mem_empty) = None.
Proof. vm_compute. reflexivity. Qed.

(** The segment of the two packet tests has window 0x0075 = 117: it
    matches [window:!55455] and [window:117]. *)
Example DetectWindowTestPacket01 :
  let '(wd, mem) := DetectWindowParse false 32 "!55455" mem_empty in
  DetectWindowMatch (Some tt) (@None unit) tcp_segment None
    {| type := 0; ctx := wd |} mem = Some 1.
Proof. vm_compute. reflexivity. Qed.

Example DetectWindowTestPacket02 :
  let '(wd, mem) := DetectWindowParse false 32 "117" mem_empty in
  DetectWindowMatch (Some tt) (@None unit) tcp_segment None
    {| type := 0; ctx := wd |} mem = Some 1.
Proof. vm_compute. reflexivity. Qed.

(** Scenarios C and D: a window of 190 against [117] and [!117]. *)
Example scenario_C :
  let '(wd, mem) := DetectWindowParse false 32 "117" mem_empty in
  DetectWindowMatch (Some tt) (@None unit) tcp_segment_190 None
    {| type := 0; ctx := wd |} mem = Some 0.
Proof. vm_compute. reflexivity. Qed.

Example scenario_D :
  let '(wd, mem) := DetectWindowParse false 32 "!117" mem_empty in
  DetectWindowMatch (Some tt) (@None unit) tcp_segment_190 None
    {| type := 0; ctx := wd |} mem = Some 1.
Proof. vm_compute. reflexivity. Qed.

(** Texts outside the grammar: garbage in front, garbage behind, no
    digit, ten digits, two negations, a sign. *)
Example rejected_texts :
  Forall (λ s, ¬ window_option (pcre_space false) (c_text s)
               ∧ DetectWindowParse_run false 32 s mem_empty
                 = (inl ExitSyntax, mem_empty))
    ["x117"; "117x"; "!"; " "; "1234567890"; "!!117"; "-117"; "11 7"].
Proof.
  repeat constructor;
    try (rewrite window_option_exec; vm_compute; intros [? ?]; discriminate).
Qed.

(** The copy of the digit run is never put in [args], so neither loop
    frees it: it outlives the call, on the success path and on the
    out-of-range path. *)
Example digit_copy_outlives_parse :
  cells (snd (DetectWindowParse false 32 "117" mem_empty)) !! 3%positive
  = Some (BString "117")
  ∧ cells (snd (DetectWindowParse false 32 "1235402" mem_empty)) !! 3%positive
    = Some (BString "1235402").
Proof. split; reflexivity. Qed.

(** When the allocator refuses the DetectWindowData a well-formed option
    is not compiled either. *)
Example parse_without_memory :
  DetectWindowParse_run false 32 "117" mem_full = (inl ExitMalloc, mem_empty).
Proof. reflexivity. Qed.

(** With a [size] field of 16 bits the conversion wraps before the range
    test, which then never fires: 1235402 becomes 55754. *)
Example narrow_size_field_wraps :
  ∃ m', DetectWindowParse false 16 "1235402" mem_empty = (Some 1%positive, m')
        ∧ cells m' !! 1%positive
          = Some (BWindow {| negated := Some 0; size := Some 55754 |}).
Proof. eexists. split; [vm_compute; reflexivity | reflexivity]. Qed.

(** ** The rule hook on its other paths *)

Section SetupFacts.
Variable vt : bool.
Variable size_bits : nat.
Variable DETECT_WINDOW : Z.
Context {DetectEngineCtx : Type}.

(** A parsed option whose node is allocated is appended behind the
    predicates the rule already has. *)
Lemma setup_success (de_ctx : option DetectEngineCtx) (s : Signature)
    (m : option loc) (windowstr : string) (mem mem1 : Mem) (wdl : loc) :
  DetectWindowParse vt size_bits windowstr mem = (Some wdl, mem1) →
  (∀ o, denied mem1 ≠ true :: o) →
  ∃ sml mem',
    DetectWindowSetup vt size_bits DETECT_WINDOW de_ctx s m windowstr mem
    = (0, {| sig_id := sig_id s; sig_match := sig_match s ++ [sml] |}, mem')
    ∧ cells mem1 !! sml = None
    ∧ cells mem' !! sml
      = Some (BSigMatch {| type := DETECT_WINDOW; ctx := Some wdl |}).
Proof.
  intros Hparse Hgrant. unfold DetectWindowSetup, SigMatchAlloc. rewrite Hparse.
  destruct (malloc_cases (BSigMatch {| type := 0; ctx := None |}) mem1)
    as [(o & Hd & _) | (sml & Hfresh & _ & ->)]; [by destruct (Hgrant o) |].
  eexists sml, _. split; [reflexivity |]. split; [done |].
  simpl. by simplify_map_eq.
Qed.

(** When the node cannot be allocated the predicate is freed and the rule
    is as before. *)
Lemma setup_no_node (de_ctx : option DetectEngineCtx) (s : Signature)
    (m : option loc) (windowstr : string) (mem mem1 : Mem) (wdl : loc) o :
  DetectWindowParse vt size_bits windowstr mem = (Some wdl, mem1) →
  denied mem1 = true :: o →
  DetectWindowSetup vt size_bits DETECT_WINDOW de_ctx s m windowstr mem
  = (-1, s, {| cells := delete wdl (cells mem1); denied := o |}).
Proof.
  intros Hparse Hd. unfold DetectWindowSetup, SigMatchAlloc, malloc.
  by rewrite Hparse, Hd.
Qed.
End SetupFacts.

(** * The properties of the keyword *)

Lemma grants_nil n h : grants n {| cells := h; denied := [] |}.
Proof. unfold grants. simpl. rewrite take_nil. constructor. Qed.

(** ** The evaluator *)

(** C1: on a TCP packet with window [w], a predicate that is not negated
    matches exactly when [w] is its threshold, and a negated predicate
    matches exactly when [w] differs from its threshold. *)
Theorem C1_match_equality_semantics {TV DC : Type} (t : option TV)
    (det_ctx : option DC) (p : Packet) (s : option Signature) (m : SigMatch)
    (mem : Mem) (l : loc) (threshold w : Z) :
  ctx m = Some l →
  TCP_GET_WINDOW p = Some w →
  (cells mem !! l
   = Some (BWindow {| negated := Some 0; size := Some threshold |}) →
   (DetectWindowMatch t det_ctx p s m mem = Some 1 ↔ w = threshold)
   ∧ (DetectWindowMatch t det_ctx p s m mem = Some 0 ↔ w ≠ threshold))
  ∧ (cells mem !! l
     = Some (BWindow {| negated := Some 1; size := Some threshold |}) →
     (DetectWindowMatch t det_ctx p s m mem = Some 1 ↔ w ≠ threshold)
     ∧ (DetectWindowMatch t det_ctx p s m mem = Some 0 ↔ w = threshold)).
Proof.
  intros Hctx Hw.
  assert (Htcp : PKT_IS_TCP p = true).
  { unfold PKT_IS_TCP, TCP_GET_WINDOW in *. by destruct (tcph p). }
  split; intros Hl; unfold DetectWindowMatch;
    rewrite Hctx, Htcp, Hl, Hw; simpl;
    destruct (Z.eqb_spec threshold w) as [-> | Hne]; simpl;
    repeat split; intros; try done; congruence.
Qed.

Lemma C1_witness :
  ctx {| type := 0; ctx := Some 5%positive |} = Some 5%positive
  ∧ TCP_GET_WINDOW tcp_segment_190 = Some 190
  ∧ cells mem_not_117 !! 5%positive
    = Some (BWindow {| negated := Some 1; size := Some 117 |})
  ∧ (DetectWindowMatch (Some tt) (@None unit) tcp_segment_190 None
       {| type := 0; ctx := Some 5%positive |} mem_not_117 = Some 1
     ↔ 190 ≠ 117)
  ∧ (DetectWindowMatch (Some tt) (@None unit) tcp_segment_190 None
       {| type := 0; ctx := Some 5%positive |} mem_not_117 = Some 0
     ↔ 190 = 117).
Proof.
  assert (H1 : ctx {| type := 0; ctx := Some 5%positive |} = Some 5%positive)
    by reflexivity.
  assert (H2 : TCP_GET_WINDOW tcp_segment_190 = Some 190) by reflexivity.
  assert (H3 : cells mem_not_117 !! 5%positive
               = Some (BWindow {| negated := Some 1; size := Some 117 |}))
    by reflexivity.
  repeat (split; [assumption |]).
  exact (proj2 (C1_match_equality_semantics (Some tt) (@None unit)
                  tcp_segment_190 None {| type := 0; ctx := Some 5%positive |}
                  mem_not_117 5%positive 117 190 H1 H2) H3).
Defined.

(** C2: a packet that is not TCP never matches, whatever the predicate,
    negated or not. *)
Theorem C2_non_tcp_never_matches {TV DC : Type} (t : option TV)
    (det_ctx : option DC) (p : Packet) (s : option Signature) (m : SigMatch)
    (mem : Mem) :
  PKT_IS_TCP p = false →
  DetectWindowMatch t det_ctx p s m mem = Some 0.
Proof.
  intros Htcp. unfold DetectWindowMatch. rewrite Htcp. by destruct (ctx m).
Qed.

Lemma C2_witness :
  PKT_IS_TCP udp_datagram = false
  ∧ DetectWindowMatch (Some tt) (@None unit) udp_datagram (Some rule_1)
      {| type := 0; ctx := Some 5%positive |} mem_not_117 = Some 0.
Proof.
  split; [reflexivity |].
  apply (C2_non_tcp_never_matches (Some tt) (@None unit) udp_datagram).
  reflexivity.
Defined.

(** C9: with a null predicate context the evaluator returns 0 for every
    packet, TCP or not. *)
Theorem C9_null_context_no_match {TV DC : Type} (t : option TV)
    (det_ctx : option DC) (p : Packet) (s : option Signature) (m : SigMatch)
    (mem : Mem) :
  ctx m = None →
  DetectWindowMatch t det_ctx p s m mem = Some 0.
Proof. intros Hctx. unfold DetectWindowMatch. by rewrite Hctx. Qed.

Lemma C9_witness :
  ctx {| type := 3; ctx := None |} = None
  ∧ DetectWindowMatch (Some tt) (Some 4%nat) tcp_segment None
      {| type := 3; ctx := None |} mem_117 = Some 0.
Proof.
  split; [reflexivity |].
  apply (C9_null_context_no_match (Some tt) (Some 4%nat) tcp_segment).
  reflexivity.
Defined.

(** C10: two calls of the evaluator whose predicates agree on [negated]
    and [size] and whose packets agree on being TCP and on the TCP window
    return the same result, whatever the thread variables, the detection
    context, the signature, the rest of the packet and the rest of the
    memory. *)
Theorem C10_match_depends_on_four_values {TV DC TV' DC' : Type}
    (t : option TV) (det_ctx : option DC) (t' : option TV')
    (det_ctx' : option DC') (p p' : Packet) (s s' : option Signature)
    (m m' : SigMatch) (mem mem' : Mem) (l l' : loc)
    (wd wd' : DetectWindowData) :
  ctx m = Some l → cells mem !! l = Some (BWindow wd) →
  ctx m' = Some l' → cells mem' !! l' = Some (BWindow wd') →
  negated wd = negated wd' →
  size wd = size wd' →
  PKT_IS_TCP p = PKT_IS_TCP p' →
  TCP_GET_WINDOW p = TCP_GET_WINDOW p' →
  DetectWindowMatch t det_ctx p s m mem
  = DetectWindowMatch t' det_ctx' p' s' m' mem'.
Proof.
  intros Hc Hl Hc' Hl' Hneg Hsize Htcp Hwin. unfold DetectWindowMatch.
  by rewrite Hc, Hc', Hl, Hl', Hneg, Hsize, Htcp, Hwin.
Qed.

Lemma C10_witness :
  ctx {| type := 0; ctx := Some 1%positive |} = Some 1%positive
  ∧ ctx {| type := 8; ctx := Some 9%positive |} = Some 9%positive
  ∧ PKT_IS_TCP tcp_segment = PKT_IS_TCP tcp_segment_other
  ∧ TCP_GET_WINDOW tcp_segment = TCP_GET_WINDOW tcp_segment_other
  ∧ DetectWindowMatch (Some tt) (@None unit) tcp_segment None
      {| type := 0; ctx := Some 1%positive |} mem_117
    = DetectWindowMatch (@None bool) (Some 3%nat) tcp_segment_other
        (Some rule_1) {| type := 8; ctx := Some 9%positive |} mem_117_moved.
Proof.
  repeat (split; [reflexivity |]).
  apply (C10_match_depends_on_four_values (Some tt) (@None unit) (@None bool)
           (Some 3%nat) tcp_segment tcp_segment_other None (Some rule_1)
           {| type := 0; ctx := Some 1%positive |}
           {| type := 8; ctx := Some 9%positive |} mem_117 mem_117_moved
           1%positive 9%positive
           {| negated := Some 0; size := Some 117 |}
           {| negated := Some 0; size := Some 117 |});
    reflexivity.
Defined.

(** ** The option parser *)

(** C3: for a run [d] of one to nine digits whose value [v] is at most
    65535, [DetectWindowParse d] returns a predicate with [negated = 0] and
    [size = v], and [DetectWindowParse ("!" d)] one with [negated = 1] and
    [size = v].  The [size] field has at least the 16 bits of the window
    and the allocator grants the three requests of the call. *)
Theorem C3_parse_digits (vt : bool) (size_bits : nat) (d : string) (m : Mem) :
  string_forall is_digit d = true →
  (1 ≤ String.length d ≤ 9)%nat →
  decimal_value d ≤ 65535 →
  (16 ≤ size_bits)%nat →
  grants 3 m →
  (∃ l m', DetectWindowParse vt size_bits d m = (Some l, m')
           ∧ cells m' !! l
             = Some (BWindow {| negated := Some 0;
                                size := Some (decimal_value d) |}))
  ∧ (∃ l m', DetectWindowParse vt size_bits (String "!" d) m = (Some l, m')
             ∧ cells m' !! l
               = Some (BWindow {| negated := Some 1;
                                  size := Some (decimal_value d) |})).
Proof.
  intros Hd Hlen Hv Hbits Hg.
  assert (Hsmall : to_size size_bits (decimal_value d) = decimal_value d).
  { apply to_size_small. pose proof (decimal_value_bounds d Hd).
    assert (2 ^ 16 ≤ 2 ^ Z.of_nat size_bits) by (apply Z.pow_le_mono_r; lia).
    lia. }
  split.
  - destruct (run_option vt size_bits d EmptyString EmptyString EmptyString
                d EmptyString m) as [Hok _]; try done.
    { rewrite !append_nil_l, append_nil_r. by apply c_text_digits. }
    { by left. }
    destruct Hok as (l & m' & Hrun & _ & Hl).
    { rewrite Hsmall. unfold MAX_WINDOW_VALUE. lia. }
    exists l, m'. rewrite (parse_unfold _ _ _ _ _ _ Hrun).
    by rewrite Hsmall in Hl.
  - destruct (run_option vt size_bits (String "!" d) EmptyString
                (String "!" EmptyString) EmptyString d EmptyString m)
      as [Hok _]; try done.
    { rewrite !append_nil_l, append_cons, append_nil_l, append_nil_r.
      unfold c_text. simpl. fold (c_text d). by rewrite c_text_digits. }
    { by right. }
    destruct Hok as (l & m' & Hrun & _ & Hl).
    { rewrite Hsmall. unfold MAX_WINDOW_VALUE. lia. }
    exists l, m'. rewrite (parse_unfold _ _ _ _ _ _ Hrun).
    by rewrite Hsmall in Hl.
Qed.

Lemma C3_witness :
  string_forall is_digit "35402" = true
  ∧ (1 ≤ String.length "35402" ≤ 9)%nat
  ∧ decimal_value "35402" ≤ 65535
  ∧ (16 ≤ 32)%nat
  ∧ grants 3 mem_empty
  ∧ (∃ l m', DetectWindowParse false 32 "35402" mem_empty = (Some l, m')
             ∧ cells m' !! l
               = Some (BWindow {| negated := Some 0;
                                  size := Some (decimal_value "35402") |}))
  ∧ (∃ l m', DetectWindowParse false 32 "!35402" mem_empty = (Some l, m')
             ∧ cells m' !! l
               = Some (BWindow {| negated := Some 1;
                                  size := Some (decimal_value "35402") |})).
Proof.
  assert (H1 : string_forall is_digit "35402" = true) by reflexivity.
  assert (H2 : (1 ≤ String.length "35402" ≤ 9)%nat) by (simpl; lia).
  assert (H3 : decimal_value "35402" ≤ 65535) by (vm_compute; discriminate).
  assert (H4 : (16 ≤ 32)%nat) by lia.
  assert (H5 : grants 3 mem_empty) by apply grants_nil.
  repeat (split; [assumption |]).
  exact (C3_parse_digits false 32 "35402" mem_empty H1 H2 H3 H4 H5).
Defined.

(** C5, as the specification has it: every text outside the grammar whose
    blanks are the space character alone is rejected.  The pattern's [\s]
    takes any white space: a tabulation in front of the digits is not an
    option of that grammar, and it is compiled. *)
Lemma C5_counterexample :
  ¬ window_option is_space_char tab_117
  ∧ (∃ l m', DetectWindowParse false 32 tab_117 mem_empty = (Some l, m')
             ∧ cells m' !! l
               = Some (BWindow {| negated := Some 0; size := Some 117 |}))
  ∧ (∃ l m', DetectWindowParse true 32 tab_117 mem_empty = (Some l, m')
             ∧ cells m' !! l
               = Some (BWindow {| negated := Some 0; size := Some 117 |})).
Proof.
  split; [| split].
  - intros H. apply window_option_head in H as [H | [H | H]];
      vm_compute in H; discriminate.
  - eexists _, _. split; [vm_compute; reflexivity | reflexivity].
  - eexists _, _. split; [vm_compute; reflexivity | reflexivity].
Qed.

(** C5, amended: every text that is not an option of the grammar
    [ws* negation? ws* digits ws*], with [ws] any character of [\s]
    (space, HT, LF, FF, CR, and VT where PCRE has it), is rejected by the
    pattern: the parser leaves through the syntax exit, returns NULL and
    leaves the memory as it was. *)
Theorem C5_parse_syntax_error (vt : bool) (size_bits : nat) (s : string)
    (m : Mem) :
  ¬ window_option (pcre_space vt) (c_text s) →
  DetectWindowParse_run vt size_bits s m = (inl ExitSyntax, m)
  ∧ DetectWindowParse vt size_bits s m = (None, m).
Proof.
  intros Hno.
  assert (Hrun : DetectWindowParse_run vt size_bits s m = (inl ExitSyntax, m)).
  { eapply run_nomatch. by apply pcre_exec_nomatch. }
  split; [done |]. by rewrite (parse_unfold _ _ _ _ _ _ Hrun).
Qed.

Lemma C5_witness :
  ¬ window_option (pcre_space false) (c_text "")
  ∧ DetectWindowParse_run false 32 "" mem_117 = (inl ExitSyntax, mem_117)
  ∧ DetectWindowParse false 32 "" mem_117 = (None, mem_117).
Proof.
  assert (H : ¬ window_option (pcre_space false) (c_text ""))
    by apply window_option_nil.
  split; [exact H |].
  exact (C5_parse_syntax_error false 32 "" mem_117 H).
Defined.

Lemma neg_flag_cases (g : string) : neg_flag g = 0 ∨ neg_flag g = 1.
Proof.
  destruct g as [|ch g]; simpl; [by left |].
  destruct (Ascii.eqb ch "!"); [by right | by left].
Qed.

(** C6: every predicate a successful [DetectWindowParse] returns has both
    fields written, its [size] between 0 and 65535 and its [negated] flag
    0 or 1. *)
Theorem C6_compiled_predicate_invariant (vt : bool) (size_bits : nat)
    (s : string) (m : Mem) (l : loc) (m' : Mem) :
  DetectWindowParse vt size_bits s m = (Some l, m') →
  ∃ n sz : Z,
    cells m' !! l = Some (BWindow {| negated := Some n; size := Some sz |})
    ∧ 0 ≤ sz ≤ MAX_WINDOW_VALUE
    ∧ (n = 0 ∨ n = 1).
Proof.
  intros Hparse.
  destruct (pcre_exec_cases vt s) as [[Hex _] | (ov & neg & ds & Hex & _)].
  - rewrite (parse_unfold _ _ _ _ _ _ (run_nomatch vt size_bits s m _ Hex))
      in Hparse. discriminate.
  - destruct (run_match vt size_bits s m ov Hex) as (r & m'' & Hrun & Hr).
    rewrite (parse_unfold _ _ _ _ _ _ Hrun) in Hparse.
    destruct r as [e | l']; [discriminate |].
    injection Hparse as -> ->. destruct Hr as (_ & Hl & Hle).
    eexists _, _. split; [exact Hl |]. split.
    + split; [apply to_size_bounds | done].
    + apply neg_flag_cases.
Qed.

Lemma C6_witness :
  DetectWindowParse false 32 " ! 65535 " mem_empty
  = (Some 1%positive, snd (DetectWindowParse false 32 " ! 65535 " mem_empty))
  ∧ ∃ n sz : Z,
      cells (snd (DetectWindowParse false 32 " ! 65535 " mem_empty)) !! 1%positive
      = Some (BWindow {| negated := Some n; size := Some sz |})
      ∧ 0 ≤ sz ≤ MAX_WINDOW_VALUE
      ∧ (n = 0 ∨ n = 1).
Proof.
  assert (H : DetectWindowParse false 32 " ! 65535 " mem_empty
              = (Some 1%positive,
                 snd (DetectWindowParse false 32 " ! 65535 " mem_empty)))
    by (vm_compute; reflexivity).
  split; [exact H |].
  exact (C6_compiled_predicate_invariant false 32 " ! 65535 " mem_empty
           1%positive _ H).
Defined.

(** C7, as the specification has it: a failure tells the caller its kind.
    The empty option fails on the syntax and 1235402 on the range, and the
    caller gets the same NULL for both; no function of the returned value
    recovers the kind. *)
Lemma C7_counterexample :
  DetectWindowParse_run false 32 "" mem_empty = (inl ExitSyntax, mem_empty)
  ∧ fst (DetectWindowParse_run false 32 "1235402" mem_empty)
    = inl ExitOutOfRange
  ∧ fst (DetectWindowParse false 32 "" mem_empty)
    = fst (DetectWindowParse false 32 "1235402" mem_empty)
  ∧ ¬ ∃ kind : option loc → ParseExit,
        ∀ (s : string) (m : Mem) (e : ParseExit),
          fst (DetectWindowParse_run false 32 s m) = inl e →
          kind (fst (DetectWindowParse false 32 s m)) = e.
Proof.
  assert (H1 : DetectWindowParse_run false 32 "" mem_empty
               = (inl ExitSyntax, mem_empty)) by reflexivity.
  assert (H2 : fst (DetectWindowParse_run false 32 "1235402" mem_empty)
               = inl ExitOutOfRange) by (vm_compute; reflexivity).
  split; [exact H1 |]. split; [exact H2 |].
  split; [vm_compute; reflexivity |].
  intros [kind Hkind].
  pose proof (Hkind "" mem_empty ExitSyntax) as Ha.
  pose proof (Hkind "1235402" mem_empty ExitOutOfRange H2) as Hb.
  rewrite H1 in Ha. specialize (Ha eq_refl).
  replace (fst (DetectWindowParse false 32 "" mem_empty)) with (@None loc)
    in Ha by (vm_compute; reflexivity).
  replace (fst (DetectWindowParse false 32 "1235402" mem_empty))
    with (@None loc) in Hb by (vm_compute; reflexivity).
  congruence.
Qed.

(** C7, amended: on every input on which the parser fails, whatever the
    exit, it returns NULL, the same value for a syntax failure and for an
    out-of-range failure, and no partial predicate survives the call: every
    DetectWindowData live afterwards was live before. *)
Theorem C7_parse_failure_returns_null (vt : bool) (size_bits : nat)
    (s : string) (m : Mem) (e : ParseExit) (m' : Mem) :
  DetectWindowParse_run vt size_bits s m = (inl e, m') →
  DetectWindowParse vt size_bits s m = (None, m')
  ∧ no_new_window m m'.
Proof.
  intros Hrun. split; [by rewrite (parse_unfold _ _ _ _ _ _ Hrun) |].
  destruct (pcre_exec_cases vt s) as [[Hex _] | (ov & neg & ds & Hex & _)].
  - rewrite (run_nomatch vt size_bits s m _ Hex) in Hrun.
    injection Hrun as _ <-. by intros l wd.
  - destruct (run_match vt size_bits s m ov Hex) as (r & m'' & Hrun' & Hr).
    rewrite Hrun' in Hrun. injection Hrun as -> ->. by destruct Hr as [? _].
Qed.

Lemma C7_witness :
  DetectWindowParse_run true 32 "!99999" mem_117
  = (inl ExitOutOfRange, snd (DetectWindowParse_run true 32 "!99999" mem_117))
  ∧ DetectWindowParse true 32 "!99999" mem_117
    = (None, snd (DetectWindowParse_run true 32 "!99999" mem_117))
  ∧ no_new_window mem_117 (snd (DetectWindowParse_run true 32 "!99999" mem_117)).
Proof.
  assert (H : DetectWindowParse_run true 32 "!99999" mem_117
              = (inl ExitOutOfRange,
                 snd (DetectWindowParse_run true 32 "!99999" mem_117)))
    by (vm_compute; reflexivity).
  split; [exact H |].
  exact (C7_parse_failure_returns_null true 32 "!99999" mem_117 _ _ H).
Defined.

(** ** The rule hook *)

(** C8: when the parser fails on the option text, [DetectWindowSetup]
    returns -1, the rule and its predicate list are as before, and the
    memory is as the parser left it: no node is allocated or appended. *)
Theorem C8_setup_failure_leaves_rule (vt : bool) (size_bits : nat)
    (DETECT_WINDOW : Z) {DC : Type} (de_ctx : option DC) (s : Signature)
    (m : option loc) (windowstr : string) (mem mem' : Mem) :
  DetectWindowParse vt size_bits windowstr mem = (None, mem') →
  DetectWindowSetup vt size_bits DETECT_WINDOW de_ctx s m windowstr mem
  = (-1, s, mem').
Proof. intros H. unfold DetectWindowSetup. by rewrite H. Qed.

Lemma C8_witness :
  DetectWindowParse false 32 "117 118" mem_117 = (None, mem_117)
  ∧ DetectWindowSetup false 32 42 (Some tt) rule_1 (Some 7%positive)
      "117 118" mem_117
    = (-1, rule_1, mem_117).
Proof.
  assert (H : DetectWindowParse false 32 "117 118" mem_117 = (None, mem_117))
    by reflexivity.
  split; [exact H |].
  exact (C8_setup_failure_leaves_rule false 32 42 (Some tt) rule_1
           (Some 7%positive) "117 118" mem_117 mem_117 H).
Defined.

(** * Further properties of the parser, the hook and the evaluator *)

Lemma grants_cons n m m' :
  (∀ o, denied m ≠ true :: o) → denied m' = tail (denied m) →
  grants n m' → grants (S n) m.
Proof.
  unfold grants. intros Hh -> Hg. destruct (denied m) as [|b o]; simpl in *.
  - constructor.
  - constructor; [| done]. destruct b; [by destruct (Hh o) | done].
Qed.

Lemma grants_zero m : grants 0 m.
Proof. unfold grants. rewrite take_0. constructor. Qed.

Lemma option_parts_window ws (s w1 neg w2 ds w3 : string) :
  option_parts ws s w1 neg w2 ds w3 → window_option ws s.
Proof. intros H. by exists w1, neg, w2, ds, w3. Qed.

Section Footprint.
Variable vt : bool.
Variable size_bits : nat.

(** [pcre_exec] either finds no match or returns 3 with the negation and
    the digit run of a way to read the text as an option. *)
Lemma pcre_exec_parts (s : string) :
  (pcre_exec vt parse_regex s (strlen s) MAX_SUBSTRINGS
   = (PCRE_ERROR_NOMATCH, replicate MAX_SUBSTRINGS (-1))
   ∧ ¬ window_option (pcre_space vt) (c_text s))
  ∨ (∃ ov w1 neg w2 ds w3,
       pcre_exec vt parse_regex s (strlen s) MAX_SUBSTRINGS = (3, ov)
       ∧ group s ov 1 = neg ∧ group s ov 2 = ds
       ∧ option_parts (pcre_space vt) (c_text s) w1 neg w2 ds w3).
Proof.
  destruct (exec vt parse_regex (replicate MAX_SUBSTRINGS (-1)) 0 (c_text s))
    as [ov|] eqn:He.
  - right.
    destruct (parse_regex_sound vt _ _ _ He)
      as (w1 & neg & w2 & ds & w3 & e & Htext & Hw1 & Hneg & Hw2 & Hds & Hlen & Hw3 & _).
    destruct (pcre_exec_match vt s w1 neg w2 ds w3)
      as (ov' & Hex & Hg1 & Hg2); try done.
    by exists ov', w1, neg, w2, ds, w3.
  - left. split.
    + unfold pcre_exec. fold (c_text s). by rewrite He.
    + intros Hw. apply window_option_exec in Hw as [ov Hov]. congruence.
Qed.

(** The memory a run on a matched option leaves, exit by exit. *)
Lemma run_footprint (s : string) (m : Mem) ov :
  pcre_exec vt parse_regex s (strlen s) MAX_SUBSTRINGS = (3, ov) →
  ∃ r m',
    DetectWindowParse_run vt size_bits s m = (r, m')
    ∧ match r with
      | inr l =>
          ∃ l2, cells m !! l = None ∧ cells m !! l2 = None ∧ l ≠ l2
            ∧ cells m'
              = <[l := BWindow
                    {| negated := Some (neg_flag (group s ov 1));
                       size := Some (to_size size_bits (atoi (group s ov 2))) |}]>
                  (<[l2 := BString (group s ov 2)]> (cells m))
            ∧ denied m' = tail (tail (tail (denied m)))
            ∧ grants 3 m
      | inl ExitOutOfRange =>
          ∃ l2, cells m !! l2 = None
            ∧ cells m' = <[l2 := BString (group s ov 2)]> (cells m)
            ∧ grants 3 m
      | inl ExitSyntax => False
      | inl _ => cells m' = cells m ∧ ¬ grants 3 m
      end.
Proof.
  intros H. unfold DetectWindowParse_run. rewrite H.
  change ((3 <? 1) || (3 >? 3)) with false.
  change (3 >? 1) with true. change (3 >? 2) with true.
  change (Z.to_nat (3 - 1)) with 2%nat. cbv beta iota zeta.
  destruct (malloc_cases (BWindow {| negated := None; size := None |}) m)
    as [(o & Hd & ->) | (l0 & Hl0 & Hg0 & ->)].
  { unfold parse_error. rewrite free_args_none. eexists _, _.
    split; [reflexivity |]. split; [done |].
    intros Hg. by destruct (grants_head _ _ o Hg). }
  destruct (pcre_exec_yields vt s ov H) as [Hy1 Hy2].
  unfold pcre_get_substring.
  change (MAX_SUBSTRINGS <=? 1)%nat with false.
  change (MAX_SUBSTRINGS <=? 2)%nat with false. cbv beta iota zeta.
  fold (group s ov 1). fold (group s ov 2).
  set (m1 := {| cells := <[l0:=BWindow {| negated := None; size := None |}]>
                           (cells m);
                denied := tail (denied m) |}).
  destruct (malloc_cases (BString (group s ov 1)) m1)
    as [(o & Hd & ->) | (l1 & Hl1 & Hg1 & ->)].
  { change (PCRE_ERROR_NOMEMORY <? 0) with true. cbv beta iota zeta.
    unfold parse_error. rewrite free_args_none. eexists _, _.
    split; [reflexivity |]. split.
    - simpl. rewrite delete_insert_eq. by rewrite delete_id.
    - intros Hg. apply (grants_tail _ _ m1) in Hg; [| done].
      by destruct (grants_head _ _ o Hg). }
  destruct (Z.ltb_spec (ov !!! (2 * 1 + 1)%nat - ov !!! (2 * 1)%nat) 0)
    as [| _]; [lia |].
  simpl in Hl1. apply lookup_insert_None in Hl1 as [Hl1 Hne10].
  set (m2 := {| cells := <[l1:=BString (group s ov 1)]> (cells m1);
                denied := tail (denied m1) |}).
  change (<[0%nat:=Some l1]> [None; None; None] !!! 0%nat) with (Some l1).
  assert (load_string (Some l1) m2 = group s ov 1) as Hload1.
  { unfold load_string. simpl. by rewrite lookup_insert_eq. }
  cbv beta iota zeta.
  set (m2' := match load_string (Some l1) m2 with
              | EmptyString => store l0 (set_negated 0) m2
              | String ch _ =>
                  if Ascii.eqb ch "!" then store l0 (set_negated 1) m2
                  else store l0 (set_negated 0) m2
              end).
  assert (m2' = store l0 (set_negated (neg_flag (group s ov 1))) m2) as ->.
  { subst m2'. rewrite Hload1. unfold neg_flag.
    destruct (group s ov 1) as [|ch g]; [done |]. by destruct (Ascii.eqb ch "!"). }
  set (m2' := store l0 (set_negated (neg_flag (group s ov 1))) m2).
  destruct (malloc_cases (BString (group s ov 2)) m2')
    as [(o & Hd & ->) | (l2 & Hl2 & Hg2 & ->)].
  { change (PCRE_ERROR_NOMEMORY <? 0) with true. cbv beta iota zeta.
    unfold parse_error. eexists _, _.
    split; [reflexivity |]. split.
    - simpl. apply map_eq. intros i.
      destruct (decide (i = l0)), (decide (i = l1)); simplify_map_eq; done.
    - intros Hg. apply (grants_tail _ _ m1) in Hg; [| done].
      apply (grants_tail _ _ m2') in Hg; [| done].
      by destruct (grants_head _ _ o Hg). }
  destruct (Z.ltb_spec (ov !!! (2 * 2 + 1)%nat - ov !!! (2 * 2)%nat) 0)
    as [| _]; [lia |].
  simpl in Hl2. apply lookup_alter_None, lookup_insert_None in Hl2 as [Hl2 Hne21].
  apply lookup_insert_None in Hl2 as [Hl2 Hne20].
  set (m3 := {| cells := <[l2:=BString (group s ov 2)]> (cells m2');
                denied := tail (denied m2') |}).
  assert (load_string (Some l2) m3 = group s ov 2) as ->.
  { unfold load_string. simpl. by rewrite lookup_insert_eq. }
  assert (Hgr : grants 3 m).
  { apply (grants_cons _ _ m1); [done | done |].
    apply (grants_cons _ _ m2'); [done | done |].
    apply (grants_cons _ _ m3); [done | done |]. apply grants_zero. }
  set (sz := to_size size_bits (atoi (group s ov 2))).
  destruct (Z.gtb_spec sz MAX_WINDOW_VALUE) as [Hbig | Hok].
  - unfold parse_error. eexists _, _.
    split; [reflexivity |]. exists l2. split; [done |]. split; [| done].
    simpl. apply map_eq. intros i.
    destruct (decide (i = l0)), (decide (i = l1)), (decide (i = l2));
      simplify_map_eq; done.
  - eexists _, _. split; [reflexivity |]. exists l2.
    split; [done |]. split; [done |]. split; [done |].
    split; [| split; [reflexivity | done]].
    simpl. apply map_eq. intros i.
    destruct (decide (i = l0)), (decide (i = l1)), (decide (i = l2));
      simplify_map_eq; done.
Qed.
End Footprint.

Lemma string_forall_impl (p q : ascii → bool) (s : string) :
  (∀ c, p c = true → q c = true) →
  string_forall p s = true → string_forall q s = true.
Proof.
  intros Hpq. induction s as [|c s IH]; simpl; [done |].
  intros [Hc Hs]%andb_true_iff. by rewrite (Hpq c Hc), IH.
Qed.

Lemma string_forall_disjoint (p q : ascii → bool) (s : string) :
  (∀ c, p c = true → q c = false) →
  string_forall p s = true → string_forall q s = true → s = EmptyString.
Proof.
  intros Hpq. destruct s as [|c s]; simpl; [done |].
  intros [Hc _]%andb_true_iff [Hc' _]%andb_true_iff.
  rewrite (Hpq c Hc) in Hc'. discriminate.
Qed.

(** An option is made of blanks, the negation and digits. *)
Lemma window_option_chars vt (s : string) :
  window_option (pcre_space vt) s → string_forall (option_char vt) s = true.
Proof.
  intros (w1 & neg & w2 & ds & w3 & -> & Hw1 & Hneg & Hw2 & Hds & _ & Hw3).
  assert (Hsp : ∀ w, string_forall (pcre_space vt) w = true →
                     string_forall (option_char vt) w = true).
  { intros w. apply string_forall_impl. intros c Hc. unfold option_char.
    by rewrite Hc. }
  rewrite !string_forall_append, (Hsp w1), (Hsp w2), (Hsp w3) by done.
  rewrite (string_forall_impl is_digit (option_char vt) ds); [| | done].
  - destruct Hneg as [-> | ->]; [done | by destruct vt].
  - intros c Hc. unfold option_char. rewrite Hc. by rewrite !orb_true_r.
Qed.

(** A text of digits alone is an option only as its own digit run. *)
Lemma window_option_digits vt (d : string) :
  string_forall is_digit d = true → window_option (pcre_space vt) d →
  (String.length d ≤ 9)%nat.
Proof.
  intros Hd (w1 & neg & w2 & ds & w3 & -> & Hw1 & Hneg & Hw2 & Hds & Hlen & Hw3).
  rewrite !string_forall_append in Hd.
  apply andb_true_iff in Hd as [Hd1 Hd]. apply andb_true_iff in Hd as [Hdn Hd].
  apply andb_true_iff in Hd as [Hd2 Hd]. apply andb_true_iff in Hd as [_ Hd3].
  assert (Hdisj : ∀ c, pcre_space vt c = true → is_digit c = false)
    by apply space_not_digit.
  rewrite (string_forall_disjoint _ _ w1 Hdisj Hw1 Hd1).
  rewrite (string_forall_disjoint _ _ w2 Hdisj Hw2 Hd2).
  rewrite (string_forall_disjoint _ _ w3 Hdisj Hw3 Hd3).
  destruct Hneg as [-> | ->]; [| by vm_compute in Hdn].
  rewrite !append_nil_l, append_nil_r. lia.
Qed.

(** X1: [pcre_exec] on PARSE_REGEX returns 3 exactly on the options of the
    grammar over the blanks of [\s] and PCRE_ERROR_NOMATCH on every other
    text; a match never returns 1 or 2, so the guards [ret > 1] and
    [ret > 2] of the parser always hold after a match. *)
Theorem X1_parse_regex_exact (vt : bool) (s : string) :
  (fst (pcre_exec vt parse_regex s (strlen s) MAX_SUBSTRINGS) = 3
   ↔ window_option (pcre_space vt) (c_text s))
  ∧ (fst (pcre_exec vt parse_regex s (strlen s) MAX_SUBSTRINGS)
     = PCRE_ERROR_NOMATCH
     ↔ ¬ window_option (pcre_space vt) (c_text s)).
Proof.
  destruct (pcre_exec_parts vt s)
    as [[-> Hno] | (ov & w1 & neg & w2 & ds & w3 & -> & _ & _ & Hparts)].
  - simpl. split; split; try done.
  - apply option_parts_window in Hparts. simpl. split; split; try done.
Qed.

(** X2: a text with a character that is neither white space, nor '!', nor
    a digit (a sign, a letter, a comma) is rejected on the syntax, with
    nothing allocated. *)
Theorem X2_parse_rejects_foreign_character (vt : bool) (size_bits : nat)
    (s : string) (m : Mem) :
  string_forall (option_char vt) (c_text s) = false →
  DetectWindowParse_run vt size_bits s m = (inl ExitSyntax, m)
  ∧ DetectWindowParse vt size_bits s m = (None, m).
Proof.
  intros Hch.
  assert (Hrun : DetectWindowParse_run vt size_bits s m = (inl ExitSyntax, m)).
  { eapply run_nomatch. apply pcre_exec_nomatch. intros Hw.
    apply window_option_chars in Hw. congruence. }
  split; [done |]. by rewrite (parse_unfold _ _ _ _ _ _ Hrun).
Qed.

Lemma X2_witness :
  string_forall (option_char true) (c_text "0x75") = false
  ∧ DetectWindowParse_run true 32 "0x75" mem_117 = (inl ExitSyntax, mem_117)
  ∧ DetectWindowParse true 32 "0x75" mem_117 = (None, mem_117).
Proof.
  assert (H : string_forall (option_char true) (c_text "0x75") = false)
    by reflexivity.
  split; [exact H |].
  exact (X2_parse_rejects_foreign_character true 32 "0x75" mem_117 H).
Defined.

(** X3: a text of ten digits or more is rejected on the syntax, not on the
    range, whatever its value: the possessive [{1,9}+] takes nine digits
    and gives none back. *)
Theorem X3_parse_rejects_ten_digits (vt : bool) (size_bits : nat)
    (d : string) (m : Mem) :
  string_forall is_digit d = true →
  (9 < String.length d)%nat →
  DetectWindowParse_run vt size_bits d m = (inl ExitSyntax, m)
  ∧ DetectWindowParse vt size_bits d m = (None, m).
Proof.
  intros Hd Hlen.
  assert (Hrun : DetectWindowParse_run vt size_bits d m = (inl ExitSyntax, m)).
  { eapply run_nomatch. apply pcre_exec_nomatch. rewrite (c_text_digits d Hd).
    intros Hw. apply (window_option_digits vt d Hd) in Hw. lia. }
  split; [done |]. by rewrite (parse_unfold _ _ _ _ _ _ Hrun).
Qed.

Lemma X3_witness :
  string_forall is_digit "0000000117" = true
  ∧ (9 < String.length "0000000117")%nat
  ∧ DetectWindowParse_run false 32 "0000000117" mem_empty
    = (inl ExitSyntax, mem_empty)
  ∧ DetectWindowParse false 32 "0000000117" mem_empty = (None, mem_empty).
Proof.
  assert (H1 : string_forall is_digit "0000000117" = true) by reflexivity.
  assert (H2 : (9 < String.length "0000000117")%nat) by (simpl; lia).
  repeat (split; [assumption |]).
  exact (X3_parse_rejects_ten_digits false 32 "0000000117" mem_empty H1 H2).
Defined.

Section ParseInversion.
Variable vt : bool.
Variable size_bits : nat.

(** All there is to know about a call that returns a predicate. *)
Lemma parse_success_inv (s : string) (m : Mem) (l : loc) (m' : Mem) :
  DetectWindowParse vt size_bits s m = (Some l, m') →
  ∃ (w1 neg w2 ds w3 : string) (l2 : loc),
    option_parts (pcre_space vt) (c_text s) w1 neg w2 ds w3
    ∧ cells m !! l = None ∧ cells m !! l2 = None ∧ l ≠ l2
    ∧ cells m'
      = <[l := BWindow {| negated := Some (neg_flag neg);
                          size := Some (to_size size_bits (decimal_value ds)) |}]>
          (<[l2 := BString ds]> (cells m))
    ∧ denied m' = tail (tail (tail (denied m)))
    ∧ grants 3 m
    ∧ to_size size_bits (decimal_value ds) ≤ MAX_WINDOW_VALUE.
Proof.
  intros Hparse.
  destruct (pcre_exec_parts vt s)
    as [[Hex _] | (ov & w1 & neg & w2 & ds & w3 & Hex & Hg1 & Hg2 & Hparts)].
  { rewrite (parse_unfold _ _ _ _ _ _ (run_nomatch vt size_bits s m _ Hex))
      in Hparse. discriminate. }
  destruct (run_footprint vt size_bits s m ov Hex) as (r & m1 & Hrun & Hr).
  destruct (run_match vt size_bits s m ov Hex) as (r' & m1' & Hrun' & Hr').
  rewrite Hrun in Hrun'. injection Hrun' as <- <-.
  rewrite (parse_unfold _ _ _ _ _ _ Hrun) in Hparse.
  destruct r as [e | l']; [discriminate |]. injection Hparse as -> ->.
  destruct Hr as (l2 & Hl & Hl2 & Hne & Hcells & Hden & Hgr).
  destruct Hr' as (_ & _ & Hle).
  pose proof Hparts as (_ & _ & _ & _ & Hds & _).
  rewrite Hg1, Hg2, (atoi_value ds Hds) in *.
  by exists w1, neg, w2, ds, w3, l2.
Qed.

(** All there is to know about a call that fails. *)
Lemma parse_failure_inv (s : string) (m : Mem) (e : ParseExit) (m' : Mem) :
  DetectWindowParse_run vt size_bits s m = (inl e, m') →
  (e ≠ ExitOutOfRange ∧ cells m' = cells m
   ∧ (e = ExitSyntax → ¬ window_option (pcre_space vt) (c_text s))
   ∧ (e ≠ ExitSyntax → ¬ grants 3 m))
  ∨ (e = ExitOutOfRange
     ∧ ∃ (w1 neg w2 ds w3 : string) (l2 : loc),
         option_parts (pcre_space vt) (c_text s) w1 neg w2 ds w3
         ∧ MAX_WINDOW_VALUE < to_size size_bits (decimal_value ds)
         ∧ cells m !! l2 = None
         ∧ cells m' = <[l2 := BString ds]> (cells m)
         ∧ grants 3 m).
Proof.
  intros Hrun.
  destruct (pcre_exec_parts vt s)
    as [[Hex Hno] | (ov & w1 & neg & w2 & ds & w3 & Hex & Hg1 & Hg2 & Hparts)].
  { rewrite (run_nomatch vt size_bits s m _ Hex) in Hrun.
    injection Hrun as <- <-. left. by repeat split. }
  destruct (run_footprint vt size_bits s m ov Hex) as (r & m1 & Hrun1 & Hr).
  destruct (run_match vt size_bits s m ov Hex) as (r' & m1' & Hrun' & Hr').
  rewrite Hrun1 in Hrun'. injection Hrun' as <- <-.
  rewrite Hrun in Hrun1. injection Hrun1 as <- <-.
  pose proof Hparts as (_ & _ & _ & _ & Hds & _).
  rewrite Hg2, (atoi_value ds Hds) in *.
  destruct e; try done.
  - left. destruct Hr as [Hcells Hng]. by repeat split.
  - left. destruct Hr as [Hcells Hng]. by repeat split.
  - right. split; [done |]. destruct Hr as (l2 & Hl2 & Hcells & Hgr).
    destruct Hr' as (_ & _ & Hrange). destruct (Hrange Hgr) as [_ Hbig].
    by exists w1, neg, w2, ds, w3, l2.
Qed.
End ParseInversion.

(** X4: blanks in front of the option, between the negation and the
    digits, and behind the digits are ignored.  For every option
    [w1 neg w2 ds w3] of the grammar, when the allocator grants three
    requests, the parser returns a predicate exactly when the value of [ds],
    converted to the type of [size], is at most 65535; the predicate is
    negated exactly when [neg] is '!' and its size is that value. *)
Theorem X4_parse_option_with_blanks (vt : bool) (size_bits : nat)
    (s w1 neg w2 ds w3 : string) (m : Mem) :
  option_parts (pcre_space vt) (c_text s) w1 neg w2 ds w3 →
  grants 3 m →
  (to_size size_bits (decimal_value ds) ≤ MAX_WINDOW_VALUE →
   ∃ l m', DetectWindowParse vt size_bits s m = (Some l, m')
           ∧ cells m' !! l
             = Some (BWindow
                 {| negated := Some (neg_flag neg);
                    size := Some (to_size size_bits (decimal_value ds)) |}))
  ∧ (MAX_WINDOW_VALUE < to_size size_bits (decimal_value ds) →
     ∃ m', DetectWindowParse vt size_bits s m = (None, m')).
Proof.
  intros (Htext & Hw1 & Hneg & Hw2 & Hds & Hlen & Hw3) Hg.
  destruct (run_option vt size_bits s w1 neg w2 ds w3 m) as [Hok Hbig];
    try done.
  split.
  - intros Hle. destruct (Hok Hle) as (l & m' & Hrun & _ & Hl).
    exists l, m'. by rewrite (parse_unfold _ _ _ _ _ _ Hrun).
  - intros Hgt. destruct (Hbig Hgt) as (m' & Hrun & _).
    exists m'. by rewrite (parse_unfold _ _ _ _ _ _ Hrun).
Qed.

Lemma X4_witness :
  option_parts (pcre_space false) (c_text "  !  0117 ")
    "  " "!" "  " "0117" " "
  ∧ grants 3 mem_117
  ∧ ∃ l m', DetectWindowParse false 32 "  !  0117 " mem_117 = (Some l, m')
            ∧ cells m' !! l
              = Some (BWindow
                  {| negated := Some (neg_flag "!");
                     size := Some (to_size 32 (decimal_value "0117")) |}).
Proof.
  assert (H1 : option_parts (pcre_space false) (c_text "  !  0117 ")
                 "  " "!" "  " "0117" " ").
  { repeat split; try reflexivity; [by right | simpl; lia | simpl; lia]. }
  assert (H2 : grants 3 mem_117) by apply grants_nil.
  split; [exact H1 |]. split; [exact H2 |].
  apply (proj1 (X4_parse_option_with_blanks false 32 "  !  0117 "
                  "  " "!" "  " "0117" " " mem_117 H1 H2)).
  vm_compute. discriminate.
Defined.

(** X5: a predicate is returned only for an option of the grammar, and it
    carries that option: its text reads [w1 neg w2 ds w3], the predicate is
    negated exactly when [neg] is '!', its size is the value of [ds] in the
    type of [size] and at most 65535, and the allocator granted the three
    requests of the call. *)
Theorem X5_parse_result_reflects_text (vt : bool) (size_bits : nat)
    (s : string) (m : Mem) (l : loc) (m' : Mem) :
  DetectWindowParse vt size_bits s m = (Some l, m') →
  ∃ w1 neg w2 ds w3 : string,
    option_parts (pcre_space vt) (c_text s) w1 neg w2 ds w3
    ∧ cells m' !! l
      = Some (BWindow
          {| negated := Some (neg_flag neg);
             size := Some (to_size size_bits (decimal_value ds)) |})
    ∧ to_size size_bits (decimal_value ds) ≤ MAX_WINDOW_VALUE
    ∧ grants 3 m.
Proof.
  intros Hparse.
  destruct (parse_success_inv vt size_bits s m l m' Hparse)
    as (w1 & neg & w2 & ds & w3 & l2 & Hparts & _ & _ & _ & Hcells & _ & Hg & Hle).
  exists w1, neg, w2, ds, w3. split; [exact Hparts |].
  split; [by rewrite Hcells, lookup_insert_eq | done].
Qed.

Lemma X5_witness :
  DetectWindowParse true 32 "!007 " mem_117
  = (Some 2%positive, snd (DetectWindowParse true 32 "!007 " mem_117))
  ∧ ∃ w1 neg w2 ds w3 : string,
      option_parts (pcre_space true) (c_text "!007 ") w1 neg w2 ds w3
      ∧ cells (snd (DetectWindowParse true 32 "!007 " mem_117)) !! 2%positive
        = Some (BWindow
            {| negated := Some (neg_flag neg);
               size := Some (to_size 32 (decimal_value ds)) |})
      ∧ to_size 32 (decimal_value ds) ≤ MAX_WINDOW_VALUE
      ∧ grants 3 mem_117.
Proof.
  assert (H : DetectWindowParse true 32 "!007 " mem_117
              = (Some 2%positive,
                 snd (DetectWindowParse true 32 "!007 " mem_117)))
    by (vm_compute; reflexivity).
  split; [exact H |].
  exact (X5_parse_result_reflects_text true 32 "!007 " mem_117 2%positive _ H).
Defined.

(** X6: the parser never frees or overwrites memory it did not allocate:
    every block live before a call, on any text and with any allocator, is
    live and unchanged after it. *)
Theorem X6_parse_keeps_blocks (vt : bool) (size_bits : nat) (s : string)
    (m : Mem) :
  blocks_kept m (snd (DetectWindowParse vt size_bits s m)).
Proof.
  destruct (DetectWindowParse_run vt size_bits s m) as [r m'] eqn:Hrun.
  rewrite (parse_unfold _ _ _ _ _ _ Hrun). simpl. intros l0 b Hb.
  destruct r as [e | l].
  - destruct (parse_failure_inv vt size_bits s m e m' Hrun)
      as [(_ & -> & _) | (_ & w1 & neg & w2 & ds & w3 & l2 & _ & _ & Hl2 & -> & _)];
      [done |].
    rewrite lookup_insert_ne; [done | congruence].
  - pose proof (parse_unfold _ _ _ _ _ _ Hrun) as Hparse. simpl in Hparse.
    destruct (parse_success_inv vt size_bits s m l m' Hparse)
      as (w1 & neg & w2 & ds & w3 & l2 & _ & Hl & Hl2 & _ & -> & _).
    rewrite !lookup_insert_ne; [done | congruence | congruence].
Qed.

(** X7: a successful call leaves exactly two new blocks: the predicate it
    returns and the copy of the digit run, which no loop frees; the copy of
    the negation is freed and the rest of the memory is as before. *)
Theorem X7_parse_success_footprint (vt : bool) (size_bits : nat) (s : string)
    (m : Mem) (l : loc) (m' : Mem) :
  DetectWindowParse vt size_bits s m = (Some l, m') →
  ∃ (wd : DetectWindowData) (l2 : loc) (ds : string),
    cells m !! l = None ∧ cells m !! l2 = None ∧ l ≠ l2
    ∧ string_forall is_digit ds = true
    ∧ cells m' = <[l := BWindow wd]> (<[l2 := BString ds]> (cells m)).
Proof.
  intros Hparse.
  destruct (parse_success_inv vt size_bits s m l m' Hparse)
    as (w1 & neg & w2 & ds & w3 & l2 & Hparts & Hl & Hl2 & Hne & Hcells & _).
  destruct Hparts as (_ & _ & _ & _ & Hds & _).
  by eexists _, l2, ds.
Qed.

Lemma X7_witness :
  DetectWindowParse false 32 "!35402" mem_117
  = (Some 2%positive, snd (DetectWindowParse false 32 "!35402" mem_117))
  ∧ ∃ (wd : DetectWindowData) (l2 : loc) (ds : string),
      cells mem_117 !! 2%positive = None ∧ cells mem_117 !! l2 = None
      ∧ 2%positive ≠ l2
      ∧ string_forall is_digit ds = true
      ∧ cells (snd (DetectWindowParse false 32 "!35402" mem_117))
        = <[2%positive := BWindow wd]> (<[l2 := BString ds]> (cells mem_117)).
Proof.
  assert (H : DetectWindowParse false 32 "!35402" mem_117
              = (Some 2%positive,
                 snd (DetectWindowParse false 32 "!35402" mem_117)))
    by (vm_compute; reflexivity).
  split; [exact H |].
  exact (X7_parse_success_footprint false 32 "!35402" mem_117 2%positive _ H).
Defined.

(** X8: a call that fails on the syntax or for want of memory leaves the
    heap exactly as it was: what it had allocated it has freed. *)
Theorem X8_parse_failure_restores_heap (vt : bool) (size_bits : nat)
    (s : string) (m : Mem) (e : ParseExit) (m' : Mem) :
  DetectWindowParse_run vt size_bits s m = (inl e, m') →
  e ≠ ExitOutOfRange →
  cells m' = cells m.
Proof.
  intros Hrun He.
  by destruct (parse_failure_inv vt size_bits s m e m' Hrun)
    as [(_ & ? & _) | (? & _)].
Qed.

Lemma X8_witness :
  DetectWindowParse_run false 32 "!117" mem_short
  = (inl ExitSubstring, snd (DetectWindowParse_run false 32 "!117" mem_short))
  ∧ ExitSubstring ≠ ExitOutOfRange
  ∧ cells (snd (DetectWindowParse_run false 32 "!117" mem_short))
    = cells mem_short.
Proof.
  assert (H1 : DetectWindowParse_run false 32 "!117" mem_short
               = (inl ExitSubstring,
                  snd (DetectWindowParse_run false 32 "!117" mem_short)))
    by (vm_compute; reflexivity).
  assert (H2 : ExitSubstring ≠ ExitOutOfRange) by discriminate.
  split; [exact H1 |]. split; [exact H2 |].
  exact (X8_parse_failure_restores_heap false 32 "!117" mem_short _ _ H1 H2).
Defined.

(** X9: a call that fails on the range leaves one new block behind, the
    copy of the digit run whose value is out of range; the predicate and
    the copy of the negation are freed. *)
Theorem X9_parse_range_failure_leaves_digits (vt : bool) (size_bits : nat)
    (s : string) (m m' : Mem) :
  DetectWindowParse_run vt size_bits s m = (inl ExitOutOfRange, m') →
  ∃ (l2 : loc) (ds : string),
    cells m !! l2 = None
    ∧ string_forall is_digit ds = true
    ∧ MAX_WINDOW_VALUE < to_size size_bits (decimal_value ds)
    ∧ cells m' = <[l2 := BString ds]> (cells m).
Proof.
  intros Hrun.
  destruct (parse_failure_inv vt size_bits s m _ m' Hrun)
    as [(? & _) | (_ & w1 & neg & w2 & ds & w3 & l2 & Hparts & Hbig & Hl2 & Hc & _)];
    [done |].
  destruct Hparts as (_ & _ & _ & _ & Hds & _). by exists l2, ds.
Qed.

Lemma X9_witness :
  DetectWindowParse_run false 32 " 65536" mem_117
  = (inl ExitOutOfRange, snd (DetectWindowParse_run false 32 " 65536" mem_117))
  ∧ ∃ (l2 : loc) (ds : string),
      cells mem_117 !! l2 = None
      ∧ string_forall is_digit ds = true
      ∧ MAX_WINDOW_VALUE < to_size 32 (decimal_value ds)
      ∧ cells (snd (DetectWindowParse_run false 32 " 65536" mem_117))
        = <[l2 := BString ds]> (cells mem_117).
Proof.
  assert (H : DetectWindowParse_run false 32 " 65536" mem_117
              = (inl ExitOutOfRange,
                 snd (DetectWindowParse_run false 32 " 65536" mem_117)))
    by (vm_compute; reflexivity).
  split; [exact H |].
  exact (X9_parse_range_failure_leaves_digits false 32 " 65536" mem_117 _ H).
Defined.

(** X10: compiling an option and destroying the predicate with
    [DetectWindowFree] leaves no predicate behind and keeps every block
    that was there; what remains of the pair of calls is one string, the
    copy of the digit run [ds] of the text [w1 neg w2 ds w3]. *)
Theorem X10_parse_then_free (vt : bool) (size_bits : nat) (s : string)
    (m : Mem) (l : loc) (m' : Mem) :
  DetectWindowParse vt size_bits s m = (Some l, m') →
  ∃ (w1 neg w2 ds w3 : string) (l2 : loc),
    option_parts (pcre_space vt) (c_text s) w1 neg w2 ds w3
    ∧ cells m !! l2 = None
    ∧ cells (DetectWindowFree (Some l) m') = <[l2 := BString ds]> (cells m)
    ∧ no_new_window m (DetectWindowFree (Some l) m')
    ∧ blocks_kept m (DetectWindowFree (Some l) m').
Proof.
  intros Hparse.
  destruct (parse_success_inv vt size_bits s m l m' Hparse)
    as (w1 & neg & w2 & ds & w3 & l2 & Hparts & Hl & Hl2 & Hne & Hcells & _).
  assert (Hfree : cells (DetectWindowFree (Some l) m')
                  = <[l2 := BString ds]> (cells m)).
  { simpl. rewrite Hcells, delete_insert_eq. apply delete_id.
    by rewrite lookup_insert_ne. }
  exists w1, neg, w2, ds, w3, l2.
  split; [exact Hparts |]. split; [done |]. split; [done |]. split.
  - intros i wd. rewrite Hfree. destruct (decide (i = l2)) as [-> |].
    + by rewrite lookup_insert_eq.
    + by rewrite lookup_insert_ne.
  - intros i b Hb. rewrite Hfree. rewrite lookup_insert_ne; [done | congruence].
Qed.

Lemma X10_witness :
  DetectWindowParse false 32 " !117" mem_117
  = (Some 2%positive, snd (DetectWindowParse false 32 " !117" mem_117))
  ∧ ∃ (w1 neg w2 ds w3 : string) (l2 : loc),
      option_parts (pcre_space false) (c_text " !117") w1 neg w2 ds w3
      ∧ cells mem_117 !! l2 = None
      ∧ cells (DetectWindowFree (Some 2%positive)
                 (snd (DetectWindowParse false 32 " !117" mem_117)))
        = <[l2 := BString ds]> (cells mem_117)
      ∧ no_new_window mem_117
          (DetectWindowFree (Some 2%positive)
             (snd (DetectWindowParse false 32 " !117" mem_117)))
      ∧ blocks_kept mem_117
          (DetectWindowFree (Some 2%positive)
             (snd (DetectWindowParse false 32 " !117" mem_117))).
Proof.
  assert (H : DetectWindowParse false 32 " !117" mem_117
              = (Some 2%positive,
                 snd (DetectWindowParse false 32 " !117" mem_117))).
  { vm_compute. reflexivity. }
  split; [exact H |].
  exact (X10_parse_then_free false 32 " !117" mem_117 2%positive _ H).
Defined.

(** X11: when the allocator refuses one of the three requests of a call
    the parser returns NULL, whatever the text, and the heap is as it was. *)
Theorem X11_parse_without_memory (vt : bool) (size_bits : nat) (s : string)
    (m : Mem) :
  ¬ grants 3 m →
  ∃ m', DetectWindowParse vt size_bits s m = (None, m')
        ∧ cells m' = cells m.
Proof.
  intros Hng.
  destruct (DetectWindowParse_run vt size_bits s m) as [r m'] eqn:Hrun.
  pose proof (parse_unfold _ _ _ _ _ _ Hrun) as Hparse.
  destruct r as [e | l].
  - exists m'. split; [done |].
    by destruct (parse_failure_inv vt size_bits s m e m' Hrun)
      as [(_ & ? & _) | (_ & ? & ? & ? & ? & ? & ? & _ & _ & _ & _ & ?)].
  - by destruct (parse_success_inv vt size_bits s m l m' Hparse)
      as (? & ? & ? & ? & ? & ? & _ & _ & _ & _ & _ & _ & ? & _).
Qed.

Lemma X11_witness :
  ¬ grants 3 mem_short
  ∧ ∃ m', DetectWindowParse false 32 "117" mem_short = (None, m')
          ∧ cells m' = cells mem_short.
Proof.
  assert (H : ¬ grants 3 mem_short).
  { unfold grants. simpl. intros Hf.
    apply Forall_cons in Hf as [_ Hf]. apply Forall_cons in Hf as [_ Hf].
    apply Forall_cons in Hf as [Hf _]. discriminate. }
  split; [exact H |].
  exact (X11_parse_without_memory false 32 "117" mem_short H).
Defined.

(** The predicate a text compiles to does not depend on the memory. *)
Lemma parse_block_of_text (vt : bool) (size_bits : nat) (s : string) :
  ∃ wd : DetectWindowData,
    ∀ (m : Mem) (l : loc) (m' : Mem),
      DetectWindowParse vt size_bits s m = (Some l, m') →
      cells m' !! l = Some (BWindow wd).
Proof.
  destruct (pcre_exec_cases vt s) as [[Hex _] | (ov & neg & ds & Hex & _)].
  - exists {| negated := None; size := None |}. intros m l m' Hparse.
    rewrite (parse_unfold _ _ _ _ _ _ (run_nomatch vt size_bits s m _ Hex))
      in Hparse. discriminate.
  - eexists. intros m l m' Hparse.
    destruct (run_match vt size_bits s m ov Hex) as (r & m'' & Hrun & Hr).
    rewrite (parse_unfold _ _ _ _ _ _ Hrun) in Hparse.
    destruct r as [e | l']; [discriminate |].
    injection Hparse as -> ->. by destruct Hr as (_ & Hl & _).
Qed.

(** X12: compiling the same text twice gives two predicates at different
    addresses with the same fields, and destroying the first leaves the
    second as it is. *)
Theorem X12_parse_twice_independent (vt : bool) (size_bits : nat)
    (s : string) (m : Mem) (l1 l2 : loc) (m1 m2 : Mem) :
  DetectWindowParse vt size_bits s m = (Some l1, m1) →
  DetectWindowParse vt size_bits s m1 = (Some l2, m2) →
  l1 ≠ l2
  ∧ ∃ wd : DetectWindowData,
      cells m2 !! l1 = Some (BWindow wd)
      ∧ cells m2 !! l2 = Some (BWindow wd)
      ∧ cells (DetectWindowFree (Some l1) m2) !! l2 = Some (BWindow wd).
Proof.
  intros H1 H2.
  destruct (parse_block_of_text vt size_bits s) as [wd Hwd].
  pose proof (Hwd _ _ _ H1) as Hb1. pose proof (Hwd _ _ _ H2) as Hb2.
  destruct (parse_success_inv vt size_bits s m1 l2 m2 H2)
    as (? & ? & ? & ds & ? & l3 & _ & Hfresh & Hfresh3 & _ & Hc2 & _).
  assert (Hne : l1 ≠ l2) by congruence.
  assert (Hne3 : l1 ≠ l3) by congruence.
  split; [done |]. exists wd. split; [| split; [done |]].
  - rewrite Hc2. by rewrite !lookup_insert_ne.
  - simpl. by rewrite lookup_delete_ne.
Qed.

Lemma X12_witness :
  DetectWindowParse false 32 "!117" mem_empty
  = (Some 1%positive, snd (DetectWindowParse false 32 "!117" mem_empty))
  ∧ DetectWindowParse false 32 "!117"
      (snd (DetectWindowParse false 32 "!117" mem_empty))
    = (Some 4%positive,
       snd (DetectWindowParse false 32 "!117"
              (snd (DetectWindowParse false 32 "!117" mem_empty))))
  ∧ 1%positive ≠ 4%positive
  ∧ ∃ wd : DetectWindowData,
      cells (snd (DetectWindowParse false 32 "!117"
                    (snd (DetectWindowParse false 32 "!117" mem_empty))))
        !! 1%positive = Some (BWindow wd)
      ∧ cells (snd (DetectWindowParse false 32 "!117"
                      (snd (DetectWindowParse false 32 "!117" mem_empty))))
          !! 4%positive = Some (BWindow wd)
      ∧ cells (DetectWindowFree (Some 1%positive)
                 (snd (DetectWindowParse false 32 "!117"
                         (snd (DetectWindowParse false 32 "!117" mem_empty)))))
          !! 4%positive = Some (BWindow wd).
Proof.
  assert (H1 : DetectWindowParse false 32 "!117" mem_empty
               = (Some 1%positive,
                  snd (DetectWindowParse false 32 "!117" mem_empty)))
    by (vm_compute; reflexivity).
  assert (H2 : DetectWindowParse false 32 "!117"
                 (snd (DetectWindowParse false 32 "!117" mem_empty))
               = (Some 4%positive,
                  snd (DetectWindowParse false 32 "!117"
                         (snd (DetectWindowParse false 32 "!117" mem_empty)))))
    by (vm_compute; reflexivity).
  split; [exact H1 |]. split; [exact H2 |].
  exact (X12_parse_twice_independent false 32 "!117" mem_empty
           1%positive 4%positive _ _ H1 H2).
Defined.

Lemma grants_fourth (m : Mem) o :
  grants 4 m → tail (tail (tail (denied m))) ≠ true :: o.
Proof.
  unfold grants. intros Hg Hd.
  destruct (denied m) as [|b1 [|b2 [|b3 [|b4 d]]]]; simpl in *; try done.
  injection Hd as -> ->.
  do 3 apply Forall_cons in Hg as [_ Hg]. by apply Forall_cons in Hg as [? _].
Qed.

Section SetupInversion.
Variable vt : bool.
Variable size_bits : nat.
Variable DETECT_WINDOW : Z.
Context {DetectEngineCtx : Type}.

(** The three ways through [DetectWindowSetup]. *)
Lemma setup_inv (de_ctx : option DetectEngineCtx) (s : Signature)
    (m : option loc) (windowstr : string) (mem : Mem) :
  (∃ mem', DetectWindowParse vt size_bits windowstr mem = (None, mem')
           ∧ DetectWindowSetup vt size_bits DETECT_WINDOW de_ctx s m windowstr mem
             = (-1, s, mem'))
  ∨ (∃ l mem1 o,
       DetectWindowParse vt size_bits windowstr mem = (Some l, mem1)
       ∧ denied mem1 = true :: o
       ∧ DetectWindowSetup vt size_bits DETECT_WINDOW de_ctx s m windowstr mem
         = (-1, s, {| cells := delete l (cells mem1); denied := o |}))
  ∨ (∃ l mem1 sml mem',
       DetectWindowParse vt size_bits windowstr mem = (Some l, mem1)
       ∧ (∀ o, denied mem1 ≠ true :: o)
       ∧ cells mem1 !! sml = None
       ∧ cells mem'
         = <[sml := BSigMatch {| type := DETECT_WINDOW; ctx := Some l |}]>
             (cells mem1)
       ∧ DetectWindowSetup vt size_bits DETECT_WINDOW de_ctx s m windowstr mem
         = (0, {| sig_id := sig_id s; sig_match := sig_match s ++ [sml] |},
            mem')).
Proof.
  unfold DetectWindowSetup, SigMatchAlloc.
  destruct (DetectWindowParse vt size_bits windowstr mem) as [[l |] mem1] eqn:Hp.
  - destruct (malloc_cases (BSigMatch {| type := 0; ctx := None |}) mem1)
      as [(o & Hd & ->) | (sml & Hfresh & Hg & ->)].
    + right. left. by exists l, mem1, o.
    + right. right. eexists l, mem1, sml, _.
      repeat split; try done. simpl. apply map_eq. intros i.
      destruct (decide (i = sml)); simplify_map_eq; done.
  - left. by exists mem1.
Qed.
End SetupInversion.

(** X13: for every option [w1 neg w2 ds w3] of the grammar whose value fits
    the window, when the allocator grants four requests,
    [DetectWindowSetup] returns 0 and puts one node behind the predicates
    the rule has; the node has the keyword's type and leads to a predicate
    that is negated exactly when [neg] is '!' and whose size is the value
    of [ds]. *)
Theorem X13_setup_option (vt : bool) (size_bits : nat) (DETECT_WINDOW : Z)
    {DC : Type} (de_ctx : option DC) (s : Signature) (m : option loc)
    (windowstr w1 neg w2 ds w3 : string) (mem : Mem) :
  option_parts (pcre_space vt) (c_text windowstr) w1 neg w2 ds w3 →
  to_size size_bits (decimal_value ds) ≤ MAX_WINDOW_VALUE →
  grants 4 mem →
  ∃ (l sml : loc) (mem' : Mem),
    DetectWindowSetup vt size_bits DETECT_WINDOW de_ctx s m windowstr mem
    = (0, {| sig_id := sig_id s; sig_match := sig_match s ++ [sml] |}, mem')
    ∧ cells mem' !! sml
      = Some (BSigMatch {| type := DETECT_WINDOW; ctx := Some l |})
    ∧ cells mem' !! l
      = Some (BWindow
          {| negated := Some (neg_flag neg);
             size := Some (to_size size_bits (decimal_value ds)) |}).
Proof.
  intros Hparts Hle Hg.
  assert (Hg3 : grants 3 mem).
  { unfold grants in *. change 3%nat with (3 `min` 4)%nat.
    rewrite <- take_take. by apply Forall_take. }
  pose proof Hparts as (Htext & Hw1 & Hneg & Hw2 & Hds & Hlen & Hw3).
  destruct (run_option vt size_bits windowstr w1 neg w2 ds w3 mem)
    as [Hok _]; try done.
  destruct (Hok Hle) as (l & mem1 & Hrun & _ & Hl).
  pose proof (parse_unfold _ _ _ _ _ _ Hrun) as Hparse. simpl in Hparse.
  destruct (parse_success_inv vt size_bits windowstr mem l mem1 Hparse)
    as (? & ? & ? & ? & ? & ? & _ & _ & _ & _ & _ & Hden & _).
  destruct (setup_inv vt size_bits DETECT_WINDOW de_ctx s m windowstr mem)
    as [(mem' & Hp & _) | [(l' & mem1' & o & Hp & Hd & _)
                          | (l' & mem1' & sml & mem' & Hp & _ & Hfresh & Hcells & Hsetup)]].
  - congruence.
  - rewrite Hparse in Hp. injection Hp as <- <-. rewrite Hden in Hd.
    by destruct (grants_fourth mem o Hg).
  - rewrite Hparse in Hp. injection Hp as <- <-.
    exists l, sml, mem'. split; [done |]. rewrite Hcells.
    split; [by rewrite lookup_insert_eq |].
    rewrite lookup_insert_ne; [done | congruence].
Qed.

Lemma X13_witness :
  option_parts (pcre_space false) (c_text "! 117") "" "!" " " "117" ""
  ∧ to_size 32 (decimal_value "117") ≤ MAX_WINDOW_VALUE
  ∧ grants 4 mem_117
  ∧ ∃ (l sml : loc) (mem' : Mem),
      DetectWindowSetup false 32 42 (Some tt) rule_1 (Some 7%positive)
        "! 117" mem_117
      = (0, {| sig_id := sig_id rule_1; sig_match := sig_match rule_1 ++ [sml] |},
         mem')
      ∧ cells mem' !! sml = Some (BSigMatch {| type := 42; ctx := Some l |})
      ∧ cells mem' !! l
        = Some (BWindow
            {| negated := Some (neg_flag "!");
               size := Some (to_size 32 (decimal_value "117")) |}).
Proof.
  assert (H1 : option_parts (pcre_space false) (c_text "! 117")
                 "" "!" " " "117" "").
  { repeat split; try reflexivity; [by right | simpl; lia | simpl; lia]. }
  assert (H2 : to_size 32 (decimal_value "117") ≤ MAX_WINDOW_VALUE)
    by (vm_compute; discriminate).
  assert (H3 : grants 4 mem_117) by apply grants_nil.
  repeat (split; [assumption |]).
  exact (X13_setup_option false 32 42 (Some tt) rule_1 (Some 7%positive)
           "! 117" "" "!" " " "117" "" mem_117 H1 H2 H3).
Defined.

(** X14: when [DetectWindowSetup] returns 0 the rule has exactly one more
    node, behind the ones it had and in memory that was free; the node has
    the keyword's type and leads to a predicate, also in memory that was
    free, with both fields written, a size of at most 65535 and a negation
    flag of 0 or 1; every block live before is kept. *)
Theorem X14_setup_success_appends_node (vt : bool) (size_bits : nat)
    (DETECT_WINDOW : Z) {DC : Type} (de_ctx : option DC) (s s' : Signature)
    (m : option loc) (windowstr : string) (mem mem' : Mem) :
  DetectWindowSetup vt size_bits DETECT_WINDOW de_ctx s m windowstr mem
  = (0, s', mem') →
  ∃ (l sml : loc) (n sz : Z),
    s' = {| sig_id := sig_id s; sig_match := sig_match s ++ [sml] |}
    ∧ cells mem !! sml = None ∧ cells mem !! l = None ∧ l ≠ sml
    ∧ cells mem' !! sml
      = Some (BSigMatch {| type := DETECT_WINDOW; ctx := Some l |})
    ∧ cells mem' !! l
      = Some (BWindow {| negated := Some n; size := Some sz |})
    ∧ 0 ≤ sz ≤ MAX_WINDOW_VALUE ∧ (n = 0 ∨ n = 1)
    ∧ blocks_kept mem mem'.
Proof.
  intros Hsetup.
  destruct (setup_inv vt size_bits DETECT_WINDOW de_ctx s m windowstr mem)
    as [(? & _ & Hs) | [(? & ? & ? & _ & _ & Hs)
                       | (l & mem1 & sml & mem'' & Hp & _ & Hfresh & Hcells & Hs)]];
    rewrite Hs in Hsetup; try discriminate.
  injection Hsetup as <- <-.
  destruct (parse_success_inv vt size_bits windowstr mem l mem1 Hp)
    as (w1 & neg & w2 & ds & w3 & l2 & _ & Hl & Hl2 & Hne & Hc1 & _ & _ & Hle).
  rewrite Hc1 in Hfresh.
  apply lookup_insert_None in Hfresh as [Hfresh Hne1].
  apply lookup_insert_None in Hfresh as [Hfresh Hne2].
  exists l, sml, (neg_flag neg), (to_size size_bits (decimal_value ds)).
  split; [done |]. split; [done |]. split; [done |]. split; [done |].
  split; [by rewrite Hcells, lookup_insert_eq |].
  split; [rewrite Hcells, Hc1; by simplify_map_eq |].
  split; [split; [apply to_size_bounds | done] |].
  split; [apply neg_flag_cases |].
  intros i b Hb. rewrite Hcells, Hc1.
  rewrite !lookup_insert_ne; [done | congruence ..].
Qed.

Lemma X14_witness :
  DetectWindowSetup true 32 42 (@None unit) rule_1 None "35402" mem_117
  = (0, snd (fst (DetectWindowSetup true 32 42 (@None unit) rule_1 None
                    "35402" mem_117)),
     snd (DetectWindowSetup true 32 42 (@None unit) rule_1 None
            "35402" mem_117))
  ∧ ∃ (l sml : loc) (n sz : Z),
      snd (fst (DetectWindowSetup true 32 42 (@None unit) rule_1 None
                  "35402" mem_117))
      = {| sig_id := sig_id rule_1; sig_match := sig_match rule_1 ++ [sml] |}
      ∧ cells mem_117 !! sml = None ∧ cells mem_117 !! l = None ∧ l ≠ sml
      ∧ cells (snd (DetectWindowSetup true 32 42 (@None unit) rule_1 None
                      "35402" mem_117)) !! sml
        = Some (BSigMatch {| type := 42; ctx := Some l |})
      ∧ cells (snd (DetectWindowSetup true 32 42 (@None unit) rule_1 None
                      "35402" mem_117)) !! l
        = Some (BWindow {| negated := Some n; size := Some sz |})
      ∧ 0 ≤ sz ≤ MAX_WINDOW_VALUE ∧ (n = 0 ∨ n = 1)
      ∧ blocks_kept mem_117
          (snd (DetectWindowSetup true 32 42 (@None unit) rule_1 None
                  "35402" mem_117)).
Proof.
  assert (H : DetectWindowSetup true 32 42 (@None unit) rule_1 None
                "35402" mem_117
              = (0, snd (fst (DetectWindowSetup true 32 42 (@None unit) rule_1
                                None "35402" mem_117)),
                 snd (DetectWindowSetup true 32 42 (@None unit) rule_1 None
                        "35402" mem_117)))
    by (vm_compute; reflexivity).
  split; [exact H |].
  exact (X14_setup_success_appends_node true 32 42 (@None unit) rule_1 _ None
           "35402" mem_117 _ H).
Defined.

Lemma string_block_facts (m m' : Mem) (l2 : loc) (ds : string) :
  cells m !! l2 = None →
  cells m' = <[l2 := BString ds]> (cells m) →
  no_new_window m m' ∧ no_new_node m m' ∧ blocks_kept m m'.
Proof.
  intros Hl2 Hc. repeat split.
  - intros i wd. rewrite Hc. destruct (decide (i = l2)) as [-> |].
    + by rewrite lookup_insert_eq.
    + by rewrite lookup_insert_ne.
  - intros i sm. rewrite Hc. destruct (decide (i = l2)) as [-> |].
    + by rewrite lookup_insert_eq.
    + by rewrite lookup_insert_ne.
  - intros i b Hb. rewrite Hc. rewrite lookup_insert_ne; [done | congruence].
Qed.

Lemma same_cells_facts (m m' : Mem) :
  cells m' = cells m →
  no_new_window m m' ∧ no_new_node m m' ∧ blocks_kept m m'.
Proof.
  intros Hc. repeat split; intros i x; by rewrite Hc.
Qed.

(** X15: when [DetectWindowSetup] returns -1, on a parse failure or for
    want of memory for the node, the rule is as before, no predicate and no
    node is left in memory that was not there, and every block live before
    is kept. *)
Theorem X15_setup_failure_leaves_nothing (vt : bool) (size_bits : nat)
    (DETECT_WINDOW : Z) {DC : Type} (de_ctx : option DC) (s s' : Signature)
    (m : option loc) (windowstr : string) (mem mem' : Mem) :
  DetectWindowSetup vt size_bits DETECT_WINDOW de_ctx s m windowstr mem
  = (-1, s', mem') →
  s' = s
  ∧ no_new_window mem mem' ∧ no_new_node mem mem' ∧ blocks_kept mem mem'.
Proof.
  intros Hsetup.
  destruct (setup_inv vt size_bits DETECT_WINDOW de_ctx s m windowstr mem)
    as [(mem1 & Hp & Hs) | [(l & mem1 & o & Hp & Hd & Hs)
                           | (? & ? & ? & ? & _ & _ & _ & _ & Hs)]];
    rewrite Hs in Hsetup; try discriminate; injection Hsetup as <- <-;
    (split; [done |]).
  - unfold DetectWindowParse in Hp.
    destruct (DetectWindowParse_run vt size_bits windowstr mem)
      as [[e | l] m1] eqn:Hrun; [| discriminate]. injection Hp as ->.
    destruct (parse_failure_inv vt size_bits windowstr mem e mem1 Hrun)
      as [(_ & Hc & _) | (_ & w1 & neg & w2 & ds & w3 & l2 & _ & _ & Hl2 & Hc & _)].
    + by apply same_cells_facts.
    + by apply (string_block_facts mem mem1 l2 ds).
  - destruct (parse_success_inv vt size_bits windowstr mem l mem1 Hp)
      as (w1 & neg & w2 & ds & w3 & l2 & _ & Hl & Hl2 & Hne & Hc & _).
    apply (string_block_facts _ _ l2 ds); [done |].
    simpl. rewrite Hc, delete_insert_eq. apply delete_id.
    by rewrite lookup_insert_ne.
Qed.

Lemma X15_witness :
  DetectWindowSetup false 32 42 (@None unit) rule_1 (Some 7%positive)
    "117" mem_three
  = (-1, rule_1,
     snd (DetectWindowSetup false 32 42 (@None unit) rule_1 (Some 7%positive)
            "117" mem_three))
  ∧ rule_1 = rule_1
  ∧ no_new_window mem_three
      (snd (DetectWindowSetup false 32 42 (@None unit) rule_1
              (Some 7%positive) "117" mem_three))
  ∧ no_new_node mem_three
      (snd (DetectWindowSetup false 32 42 (@None unit) rule_1
              (Some 7%positive) "117" mem_three))
  ∧ blocks_kept mem_three
      (snd (DetectWindowSetup false 32 42 (@None unit) rule_1
              (Some 7%positive) "117" mem_three)).
Proof.
  assert (H : DetectWindowSetup false 32 42 (@None unit) rule_1
                (Some 7%positive) "117" mem_three
              = (-1, rule_1,
                 snd (DetectWindowSetup false 32 42 (@None unit) rule_1
                        (Some 7%positive) "117" mem_three)))
    by (vm_compute; reflexivity).
  split; [exact H |].
  exact (X15_setup_failure_leaves_nothing false 32 42 (@None unit) rule_1
           rule_1 (Some 7%positive) "117" mem_three _ H).
Defined.

Lemma match_compiled {TV DC : Type} (t : option TV) (det_ctx : option DC)
    (p : Packet) (sg : option Signature) (m : SigMatch) (mem : Mem)
    (l : loc) (n sz w : Z) :
  ctx m = Some l →
  cells mem !! l = Some (BWindow {| negated := Some n; size := Some sz |}) →
  TCP_GET_WINDOW p = Some w →
  DetectWindowMatch t det_ctx p sg m mem
  = Some (if ((n =? 0) && (sz =? w)) || (negb (n =? 0) && negb (sz =? w))
          then 1 else 0).
Proof.
  intros Hctx Hl Hw.
  assert (Htcp : PKT_IS_TCP p = true).
  { unfold PKT_IS_TCP, TCP_GET_WINDOW in *. by destruct (tcph p). }
  unfold DetectWindowMatch. rewrite Hctx, Htcp, Hl, Hw. simpl.
  by destruct ((n =? 0) && (sz =? w) || negb (n =? 0) && negb (sz =? w)).
Qed.

(** X16: from the rule text to the decision.  After [DetectWindowSetup]
    has returned 0 for an option text [w1 neg w2 ds w3], the node it put
    last in the rule, evaluated on a TCP packet of window [w] in the memory
    the setup left, matches exactly when the text has no '!' and [w] is the
    value of [ds] converted to the type of [size], or has a '!' and [w]
    differs from that converted value; it returns 0 otherwise. *)
Theorem X16_setup_then_match (vt : bool) (size_bits : nat)
    (DETECT_WINDOW : Z) {DEC TV DC : Type} (de_ctx : option DEC)
    (s s' : Signature) (m : option loc) (windowstr : string)
    (mem mem' : Mem) (t : option TV) (det_ctx : option DC) (p : Packet)
    (w : Z) :
  DetectWindowSetup vt size_bits DETECT_WINDOW de_ctx s m windowstr mem
  = (0, s', mem') →
  TCP_GET_WINDOW p = Some w →
  ∃ (sml : loc) (node : SigMatch) (w1 neg w2 ds w3 : string),
    sig_match s' = sig_match s ++ [sml]
    ∧ cells mem' !! sml = Some (BSigMatch node)
    ∧ type node = DETECT_WINDOW
    ∧ option_parts (pcre_space vt) (c_text windowstr) w1 neg w2 ds w3
    ∧ (DetectWindowMatch t det_ctx p (Some s') node mem' = Some 1
       ↔ (neg = EmptyString ∧ w = to_size size_bits (decimal_value ds))
         ∨ (neg = String "!" EmptyString
            ∧ w ≠ to_size size_bits (decimal_value ds)))
    ∧ (DetectWindowMatch t det_ctx p (Some s') node mem' = Some 1
       ∨ DetectWindowMatch t det_ctx p (Some s') node mem' = Some 0).
Proof.
  intros Hsetup Hw.
  destruct (setup_inv vt size_bits DETECT_WINDOW de_ctx s m windowstr mem)
    as [(? & _ & Hs) | [(? & ? & ? & _ & _ & Hs)
                       | (l & mem1 & sml & mem'' & Hp & _ & Hfresh & Hcells & Hs)]];
    rewrite Hs in Hsetup; try discriminate.
  injection Hsetup as <- <-.
  destruct (parse_success_inv vt size_bits windowstr mem l mem1 Hp)
    as (w1 & neg & w2 & ds & w3 & l2 & Hparts & Hl & Hl2 & Hne & Hc1 & _).
  rewrite Hc1 in Hfresh.
  apply lookup_insert_None in Hfresh as [Hfresh Hne1].
  exists sml, {| type := DETECT_WINDOW; ctx := Some l |}, w1, neg, w2, ds, w3.
  split; [done |]. split; [by rewrite Hcells, lookup_insert_eq |].
  split; [done |]. split; [done |].
  rewrite (match_compiled t det_ctx p _ _ mem'' l (neg_flag neg)
             (to_size size_bits (decimal_value ds)) w); [| done | | done].
  2: { rewrite Hcells, Hc1. by simplify_map_eq. }
  destruct Hparts as (_ & _ & Hneg & _).
  destruct (Z.eqb_spec (to_size size_bits (decimal_value ds)) w) as [Heq | Hneq];
    destruct Hneg as [-> | ->]; simpl; (split; [| by auto]);
    split; try done; try (intros [[? ?] | [? ?]]; congruence); auto.
Qed.

Lemma X16_witness :
  DetectWindowSetup false 32 42 (@None unit) rule_1 None "!55455" mem_empty
  = (0, snd (fst (DetectWindowSetup false 32 42 (@None unit) rule_1 None
                    "!55455" mem_empty)),
     snd (DetectWindowSetup false 32 42 (@None unit) rule_1 None
            "!55455" mem_empty))
  ∧ TCP_GET_WINDOW tcp_segment = Some 117
  ∧ ∃ (sml : loc) (node : SigMatch) (w1 neg w2 ds w3 : string),
      sig_match (snd (fst (DetectWindowSetup false 32 42 (@None unit) rule_1
                             None "!55455" mem_empty)))
      = sig_match rule_1 ++ [sml]
      ∧ cells (snd (DetectWindowSetup false 32 42 (@None unit) rule_1 None
                      "!55455" mem_empty)) !! sml
        = Some (BSigMatch node)
      ∧ type node = 42
      ∧ option_parts (pcre_space false) (c_text "!55455") w1 neg w2 ds w3
      ∧ (DetectWindowMatch (Some tt) (@None unit) tcp_segment
           (Some (snd (fst (DetectWindowSetup false 32 42 (@None unit) rule_1
                              None "!55455" mem_empty))))
           node
           (snd (DetectWindowSetup false 32 42 (@None unit) rule_1 None
                   "!55455" mem_empty)) = Some 1
         ↔ (neg = EmptyString ∧ 117 = to_size 32 (decimal_value ds))
           ∨ (neg = String "!" EmptyString
              ∧ 117 ≠ to_size 32 (decimal_value ds)))
      ∧ (DetectWindowMatch (Some tt) (@None unit) tcp_segment
           (Some (snd (fst (DetectWindowSetup false 32 42 (@None unit) rule_1
                              None "!55455" mem_empty))))
           node
           (snd (DetectWindowSetup false 32 42 (@None unit) rule_1 None
                   "!55455" mem_empty)) = Some 1
         ∨ DetectWindowMatch (Some tt) (@None unit) tcp_segment
             (Some (snd (fst (DetectWindowSetup false 32 42 (@None unit)
                                rule_1 None "!55455" mem_empty))))
             node
             (snd (DetectWindowSetup false 32 42 (@None unit) rule_1 None
                     "!55455" mem_empty)) = Some 0).
Proof.
  assert (H1 : DetectWindowSetup false 32 42 (@None unit) rule_1 None
                 "!55455" mem_empty
               = (0, snd (fst (DetectWindowSetup false 32 42 (@None unit)
                                 rule_1 None "!55455" mem_empty)),
                  snd (DetectWindowSetup false 32 42 (@None unit) rule_1 None
                         "!55455" mem_empty)))
    by (vm_compute; reflexivity).
  assert (H2 : TCP_GET_WINDOW tcp_segment = Some 117) by reflexivity.
  split; [exact H1 |]. split; [exact H2 |].
  exact (X16_setup_then_match false 32 42 (@None unit) rule_1 _ None "!55455"
           mem_empty _ (Some tt) (@None unit) tcp_segment 117 H1 H2).
Defined.

(** X17: a predicate and its negation with the same size split the TCP
    packets: on each TCP packet exactly one of the two matches.  On a
    packet that is not TCP neither matches, so there the negated predicate
    is not the complement. *)
Theorem X17_negation_complements_on_tcp {TV DC : Type} (t : option TV)
    (det_ctx : option DC) (p : Packet) (sg : option Signature)
    (m m' : SigMatch) (mem mem' : Mem) (l l' : loc) (threshold : Z) :
  ctx m = Some l →
  cells mem !! l
  = Some (BWindow {| negated := Some 0; size := Some threshold |}) →
  ctx m' = Some l' →
  cells mem' !! l'
  = Some (BWindow {| negated := Some 1; size := Some threshold |}) →
  ∃ a b : Z,
    DetectWindowMatch t det_ctx p sg m mem = Some a
    ∧ DetectWindowMatch t det_ctx p sg m' mem' = Some b
    ∧ (PKT_IS_TCP p = true → a + b = 1)
    ∧ (PKT_IS_TCP p = false → a = 0 ∧ b = 0).
Proof.
  intros Hc Hl Hc' Hl'. unfold DetectWindowMatch.
  rewrite Hc, Hc', Hl, Hl'. unfold PKT_IS_TCP, TCP_GET_WINDOW.
  destruct (tcph p) as [hdr |]; simpl.
  - destruct (Z.eqb_spec threshold (th_win hdr)); simpl;
      eexists _, _; repeat split; try done.
  - exists 0, 0. by repeat split.
Qed.

Lemma X17_witness :
  ctx {| type := 0; ctx := Some 1%positive |} = Some 1%positive
  ∧ cells mem_117 !! 1%positive
    = Some (BWindow {| negated := Some 0; size := Some 117 |})
  ∧ ctx {| type := 0; ctx := Some 5%positive |} = Some 5%positive
  ∧ cells mem_not_117 !! 5%positive
    = Some (BWindow {| negated := Some 1; size := Some 117 |})
  ∧ ∃ a b : Z,
      DetectWindowMatch (Some tt) (@None unit) tcp_segment_190 None
        {| type := 0; ctx := Some 1%positive |} mem_117 = Some a
      ∧ DetectWindowMatch (Some tt) (@None unit) tcp_segment_190 None
          {| type := 0; ctx := Some 5%positive |} mem_not_117 = Some b
      ∧ (PKT_IS_TCP tcp_segment_190 = true → a + b = 1)
      ∧ (PKT_IS_TCP tcp_segment_190 = false → a = 0 ∧ b = 0).
Proof.
  assert (H1 : ctx {| type := 0; ctx := Some 1%positive |} = Some 1%positive)
    by reflexivity.
  assert (H2 : cells mem_117 !! 1%positive
               = Some (BWindow {| negated := Some 0; size := Some 117 |}))
    by reflexivity.
  assert (H3 : ctx {| type := 0; ctx := Some 5%positive |} = Some 5%positive)
    by reflexivity.
  assert (H4 : cells mem_not_117 !! 5%positive
               = Some (BWindow {| negated := Some 1; size := Some 117 |}))
    by reflexivity.
  repeat (split; [assumption |]).
  exact (X17_negation_complements_on_tcp (Some tt) (@None unit)
           tcp_segment_190 None _ _ mem_117 mem_not_117 1%positive 5%positive
           117 H1 H2 H3 H4).
Defined.

(** X18: the evaluator never reads an unwritten field of a predicate the
    parser returned: on a node that leads to such a predicate, in the
    memory the parser left, it answers 0 or 1 for every packet. *)
Theorem X18_match_defined_on_parsed {TV DC : Type} (vt : bool)
    (size_bits : nat) (s : string) (mem : Mem) (l : loc) (mem' : Mem)
    (t : option TV) (det_ctx : option DC) (p : Packet)
    (sg : option Signature) (m : SigMatch) :
  DetectWindowParse vt size_bits s mem = (Some l, mem') →
  ctx m = Some l →
  DetectWindowMatch t det_ctx p sg m mem' = Some 0
  ∨ DetectWindowMatch t det_ctx p sg m mem' = Some 1.
Proof.
  intros Hparse Hctx.
  destruct (parse_success_inv vt size_bits s mem l mem' Hparse)
    as (w1 & neg & w2 & ds & w3 & l2 & _ & _ & _ & _ & Hc & _).
  destruct (TCP_GET_WINDOW p) as [w |] eqn:Hw.
  - rewrite (match_compiled t det_ctx p sg m mem' l (neg_flag neg)
               (to_size size_bits (decimal_value ds)) w); [| done | | done].
    + destruct (_ || _); auto.
    + rewrite Hc. by rewrite lookup_insert_eq.
  - left. unfold DetectWindowMatch. rewrite Hctx.
    unfold PKT_IS_TCP, TCP_GET_WINDOW in *. by destruct (tcph p).
Qed.

Lemma X18_witness :
  DetectWindowParse false 32 "117" mem_117
  = (Some 2%positive, snd (DetectWindowParse false 32 "117" mem_117))
  ∧ ctx {| type := 42; ctx := Some 2%positive |} = Some 2%positive
  ∧ (DetectWindowMatch (Some tt) (@None unit) udp_datagram (Some rule_1)
       {| type := 42; ctx := Some 2%positive |}
       (snd (DetectWindowParse false 32 "117" mem_117)) = Some 0
     ∨ DetectWindowMatch (Some tt) (@None unit) udp_datagram (Some rule_1)
         {| type := 42; ctx := Some 2%positive |}
         (snd (DetectWindowParse false 32 "117" mem_117)) = Some 1).
Proof.
  assert (H1 : DetectWindowParse false 32 "117" mem_117
               = (Some 2%positive,
                  snd (DetectWindowParse false 32 "117" mem_117)))
    by (vm_compute; reflexivity).
  assert (H2 : ctx {| type := 42; ctx := Some 2%positive |} = Some 2%positive)
    by reflexivity.
  split; [exact H1 |]. split; [exact H2 |].
  exact (X18_match_defined_on_parsed false 32 "117" mem_117 2%positive _
           (Some tt) (@None unit) udp_datagram (Some rule_1) _ H1 H2).
Defined.

(** X19: the range test looks at the value after its conversion to the
    type of [size].  When that type has 16 bits or fewer the test can never
    fire: every option of the grammar is compiled, with its value reduced
    modulo [2 ^ size_bits]. *)
Theorem X19_narrow_size_never_out_of_range (vt : bool) (size_bits : nat)
    (s w1 neg w2 ds w3 : string) (m : Mem) :
  (size_bits ≤ 16)%nat →
  option_parts (pcre_space vt) (c_text s) w1 neg w2 ds w3 →
  grants 3 m →
  ∃ l m', DetectWindowParse vt size_bits s m = (Some l, m')
          ∧ cells m' !! l
            = Some (BWindow
                {| negated := Some (neg_flag neg);
                   size := Some (decimal_value ds mod 2 ^ Z.of_nat size_bits) |}).
Proof.
  intros Hbits (Htext & Hw1 & Hneg & Hw2 & Hds & Hlen & Hw3) Hg.
  destruct (run_option vt size_bits s w1 neg w2 ds w3 m) as [Hok _];
    try done.
  destruct Hok as (l & m' & Hrun & _ & Hl).
  { unfold to_size, MAX_WINDOW_VALUE.
    assert (2 ^ Z.of_nat size_bits ≤ 2 ^ 16) by (apply Z.pow_le_mono_r; lia).
    pose proof (Z.mod_pos_bound (decimal_value ds) (2 ^ Z.of_nat size_bits)).
    lia. }
  exists l, m'. by rewrite (parse_unfold _ _ _ _ _ _ Hrun).
Qed.

Lemma X19_witness :
  (16 ≤ 16)%nat
  ∧ option_parts (pcre_space false) (c_text "1235402") "" "" "" "1235402" ""
  ∧ grants 3 mem_empty
  ∧ ∃ l m', DetectWindowParse false 16 "1235402" mem_empty = (Some l, m')
            ∧ cells m' !! l
              = Some (BWindow
                  {| negated := Some (neg_flag "");
                     size := Some (decimal_value "1235402" mod 2 ^ Z.of_nat 16) |}).
Proof.
  assert (H1 : (16 ≤ 16)%nat) by lia.
  assert (H2 : option_parts (pcre_space false) (c_text "1235402")
                 "" "" "" "1235402" "").
  { repeat split; try reflexivity; [by left | simpl; lia | simpl; lia]. }
  assert (H3 : grants 3 mem_empty) by apply grants_nil.
  repeat (split; [assumption |]).
  exact (X19_narrow_size_never_out_of_range false 16 "1235402"
           "" "" "" "1235402" "" mem_empty H1 H2 H3).
Defined.

(** X20: when the [size] field has at least 30 bits, so that the value of
    nine digits survives the conversion of line 165, a run [d] of one to
    nine digits whose value exceeds 65535 is rejected by the range test:
    with the three requests granted, [DetectWindowParse d] leaves through
    the out-of-range exit and returns NULL. *)
Theorem X20_wide_size_rejects_out_of_range (vt : bool) (size_bits : nat) (d : string)
    (m : Mem) :
  string_forall is_digit d = true →
  (1 ≤ String.length d ≤ 9)%nat →
  MAX_WINDOW_VALUE < decimal_value d →
  (30 ≤ size_bits)%nat →
  grants 3 m →
  ∃ m', DetectWindowParse_run vt size_bits d m = (inl ExitOutOfRange, m')
        ∧ DetectWindowParse vt size_bits d m = (None, m').
Proof.
  intros Hd Hlen Hv Hbits Hg.
  assert (Hsmall : to_size size_bits (decimal_value d) = decimal_value d).
  { apply to_size_small. pose proof (decimal_value_bounds d Hd).
    assert (10 ^ Z.of_nat (String.length d) ≤ 10 ^ 9)
      by (apply Z.pow_le_mono_r; lia).
    assert (2 ^ 30 ≤ 2 ^ Z.of_nat size_bits) by (apply Z.pow_le_mono_r; lia).
    lia. }
  destruct (run_option vt size_bits d EmptyString EmptyString EmptyString
              d EmptyString m) as [_ Hbig]; try done.
  { rewrite !append_nil_l, append_nil_r. by apply c_text_digits. }
  { by left. }
  destruct Hbig as (m' & Hrun & _); [by rewrite Hsmall |].
  exists m'. split; [done |]. by rewrite (parse_unfold _ _ _ _ _ _ Hrun).
Qed.

Lemma X20_witness :
  string_forall is_digit "1235402" = true
  ∧ (1 ≤ String.length "1235402" ≤ 9)%nat
  ∧ MAX_WINDOW_VALUE < decimal_value "1235402"
  ∧ (30 ≤ 32)%nat
  ∧ grants 3 mem_empty
  ∧ ∃ m', DetectWindowParse_run false 32 "1235402" mem_empty
          = (inl ExitOutOfRange, m')
          ∧ DetectWindowParse false 32 "1235402" mem_empty = (None, m').
Proof.
  assert (H1 : string_forall is_digit "1235402" = true) by reflexivity.
  assert (H2 : (1 ≤ String.length "1235402" ≤ 9)%nat) by (simpl; lia).
  assert (H3 : MAX_WINDOW_VALUE < decimal_value "1235402") by reflexivity.
  assert (H4 : (30 ≤ 32)%nat) by lia.
  assert (H5 : grants 3 mem_empty) by apply grants_nil.
  repeat (split; [assumption |]).
  exact (X20_wide_size_rejects_out_of_range false 32 "1235402" mem_empty H1 H2 H3 H4 H5).
Defined.
